(** * Siteswap validation and flight planning

    A shallow embedding of [parseSiteswap] (lib/siteswap.ts) and
    [buildSimulationPlan] (lib/simulation.ts), together with the properties
    of the validator and of the planner.

    Conventions of the embedding.
    - A JavaScript [number] that holds an integer is a [Z]: the embedding
      covers integer arguments, in the range where JavaScript arithmetic
      is exact. The one place where the code can then leave the integers is
      [beat % balls] with [balls = 0], which is [NaN]; ball identifiers are
      therefore of type [number], with a [NaN] constructor.
    - The JavaScript remainder [a % b] truncates towards zero: it is
      [Z.rem], not [Z.modulo].
    - A JavaScript string is the list of its code points, which is what
      [for (const char of s)] iterates over; strings are taken well formed
      (no lone surrogate).
    - [throw] is modelled by the [Throw] constructor of [outcome]. An
      error of the engine itself is modelled where the code can reach it:
      the spread call [Math.max(...pattern)] throws a [RangeError] when the
      engine does not accept that many arguments. *)

From Stdlib Require Import ZArith NArith Lia Ascii String List.
From stdpp Require Import base decidable option list sorting gmap pretty.

#[local] Open Scope Z_scope.

(** ** Exceptions *)

Definition jsstring : Type := list N.

(** An ASCII literal as a JavaScript string. *)
Definition lit (s : string) : jsstring :=
  List.map N_of_ascii (list_ascii_of_string s).

(** [RangeError] is the error of the engine; its message depends on the
    engine and is never read. *)
Inductive exn : Type :=
| Error (message : jsstring)
| SiteswapError (message : jsstring)
| RangeError.

Inductive outcome (A : Type) : Type :=
| Throw (e : exn)
| Return (a : A).
Arguments Throw {A} e.
Arguments Return {A} a.

#[export] Instance outcome_bind : MBind outcome :=
  fun A B k m =>
    match m with
    | Throw e => Throw e
    | Return a => k a
    end.

(** ** lib/siteswap.ts *)

Module Siteswap.

Definition CHAR_MAP : jsstring := lit "0123456789abcdefghijklmnopqrstuvwxyz".

Record SiteswapData : Type := {
  pattern : list Z;
  period : Z;
  balls : Z;
  maxThrow : Z
}.

Definition MSG_EMPTY : jsstring := lit "Enter at least one throw height.".
Definition MSG_ALL_ZERO : jsstring := lit "Pattern cannot be all zeros.".
Definition MSG_AVERAGE : jsstring :=
  lit "Average throw height must be an integer (invalid pattern).".
Definition MSG_COLLISION : jsstring :=
  lit "Two balls collide in the same beat (invalid pattern).".
Definition MSG_NO_BALL : jsstring := lit "Pattern must include at least one ball.".

(** The template literal of the unsupported-character message; 34 is the
    code point of the double quote. *)
Definition MSG_UNSUPPORTED (char : N) : jsstring :=
  lit "Unsupported character " ++ [34%N] ++ [char] ++ [34%N]
    ++ lit ". Use 0-9 or a-z for throws.".

(** [s.indexOf(char)] for a one-code-point [char]: the first position of
    [char] in [s], or [-1]. *)
Fixpoint indexOfFrom (s : jsstring) (char : N) (i : Z) : Z :=
  match s with
  | [] => -1
  | c :: rest => if (c =? char)%N then i else indexOfFrom rest char (i + 1)
  end.

Definition indexOf (s : jsstring) (char : N) : Z := indexOfFrom s char 0.

(** The regular-expression class [\s]: the ECMAScript WhiteSpace and
    LineTerminator code points. *)
Definition isWhitespace (c : N) : bool :=
  ((9 <=? c) && (c <=? 13) || (c =? 32) || (c =? 160) || (c =? 5760)
   || (8192 <=? c) && (c <=? 8202) || (c =? 8232) || (c =? 8233)
   || (c =? 8239) || (c =? 8287) || (c =? 12288) || (c =? 65279))%N.

(** [s.replace(/\s+/g, "")] *)
Definition stripWhitespace (s : jsstring) : jsstring :=
  List.filter (fun c => negb (isWhitespace c)) s.

(** The [for ... of] loop that fills [pattern]. *)
Fixpoint readThrows (cleaned : jsstring) (pattern : list Z) : outcome (list Z) :=
  match cleaned with
  | [] => Return pattern
  | char :: rest =>
      let value := indexOf CHAR_MAP char in
      if value =? -1 then Throw (SiteswapError (MSG_UNSUPPORTED char))
      else readThrows rest (pattern ++ [value])
  end.

(** [pattern.every((value) => value === 0)] *)
Definition allZero (pattern : list Z) : bool := forallb (fun value => value =? 0) pattern.

(** [pattern.reduce((acc, value) => acc + value, 0)] *)
Definition sumThrows (pattern : list Z) : Z := fold_left Z.add pattern 0.

(** [Number.isInteger(sum / period)]: the quotient of two integers (the
    divisor is the length of a non-empty array) is an integer exactly when
    the division leaves no remainder. *)
Definition isIntegerQuotient (sum period : Z) : bool := Z.rem sum period =? 0.

(** The [forEach] callback of the collision test, run from [index] on. *)
Fixpoint checkLandings (period : Z) (values : list Z) (index : Z)
    (landings : gset Z) : outcome (gset Z) :=
  match values with
  | [] => Return landings
  | value :: rest =>
      if value =? 0 then checkLandings period rest (index + 1) landings
      else
        let landing := Z.rem (index + value) period in
        if decide (landing ∈ landings)
        then Throw (SiteswapError MSG_COLLISION)
        else checkLandings period rest (index + 1) ({[landing]} ∪ landings)
  end.

(** The largest element of a non-empty array of integers. *)
Definition maxOfList (pattern : list Z) : Z :=
  match pattern with
  | [] => 0
  | value :: rest => fold_left Z.max rest value
  end.

Section Parse.

(** [String.prototype.toLowerCase], the Unicode lower-case mapping of the
    host; the validator is correct whatever it maps to what. *)
Variable toLowerCase : jsstring -> jsstring.

(** Whether the engine accepts a call with that many arguments.
    ECMAScript leaves the limit to the implementation; past it, a spread
    call throws a [RangeError]. *)
Variable fitsArguments : Z -> bool.

Definition cleanInput (rawInput : jsstring) : jsstring :=
  stripWhitespace (toLowerCase rawInput).

(** [Math.max(...pattern)]: every element of the array is passed as an
    argument. The array is never empty where it is called. *)
Definition mathMax (pattern : list Z) : outcome Z :=
  if fitsArguments (Z.of_nat (length pattern)) then Return (maxOfList pattern)
  else Throw RangeError.

(** [balls] is the exact quotient wherever it is used after the integer
    test, so the real division [sum / period] is the division of [Z]. *)
Definition parseSiteswap (rawInput : jsstring) : outcome SiteswapData :=
  let cleaned := cleanInput rawInput in
  match cleaned with
  | [] => Throw (SiteswapError MSG_EMPTY)
  | _ :: _ =>
      pattern ← readThrows cleaned [];
      if allZero pattern then Throw (SiteswapError MSG_ALL_ZERO)
      else
        let period := Z.of_nat (length pattern) in
        let sum := sumThrows pattern in
        let balls := sum / period in
        if negb (isIntegerQuotient sum period)
        then Throw (SiteswapError MSG_AVERAGE)
        else
          _ ← checkLandings period pattern 0 ∅;
          if balls <? 1 then Throw (SiteswapError MSG_NO_BALL)
          else
            maxThrow ← mathMax pattern;
            Return {| pattern := pattern; period := period;
                      balls := balls; maxThrow := maxThrow |}
  end.

End Parse.

(** The lower-case mapping restricted to ASCII input: [A-Z] become [a-z],
    every other code point is unchanged. *)
Definition asciiToLowerCase (s : jsstring) : jsstring :=
  List.map (fun c => if ((65 <=? c) && (c <=? 90))%N then (c + 32)%N else c) s.

(** An engine that accepts up to 100000 arguments. *)
Definition typicalLimit (n : Z) : bool := n <=? 100000.

End Siteswap.

(** ** lib/simulation.ts *)

Module Simulation.

Inductive Hand : Type := Left | Right.

(** A JavaScript number that is an integer or [NaN]. *)
Inductive number : Type := Int (n : Z) | NaN.

(** [a % b] on integers: [NaN] when the divisor is zero. *)
Definition jsRem (a b : Z) : number :=
  if b =? 0 then NaN else Int (Z.rem a b).

(** Number-to-string conversion, as used by a template literal. *)
Definition showNumber (x : number) : string :=
  match x with
  | Int n => pretty n
  | NaN => "NaN"
  end.

Record Flight : Type := {
  flightId : string;
  ballId : number;
  throwValue : Z;
  startBeat : Z;
  endBeat : Z;
  fromHand : Hand;
  toHand : Hand
}.

Record SimulationPlan : Type := {
  flights : list Flight;
  beats : Z
}.

Definition MSG_CONFLICT : jsstring :=
  lit "Landing conflict detected while building flight plan.".

(** The variables the [for] loop updates. *)
Record LoopState : Type := {
  flightsSoFar : list Flight;
  catchAssignments : gmap Z number;
  nextBallId : Z
}.

Definition initialState : LoopState :=
  {| flightsSoFar := []; catchAssignments := ∅; nextBallId := 0 |}.

(** The branch of the identity resolution that produced a [ballId]. *)
Inductive IdSource : Type := PendingLanding | Introduced | Fallback.

(** [pattern[i]] for an index the loop computes; [i] is always within the
    array there, the default stands for [undefined]. *)
Definition throwAt (pattern : list Z) (i : Z) : Z := nth (Z.to_nat i) pattern 0.

Definition handOf (beat : Z) : Hand :=
  if Z.rem beat 2 =? 0 then Left else Right.

Section Planner.

Variable pattern : list Z.
Variable balls : Z.

Definition patternPeriod : Z := Z.of_nat (length pattern).

(** Lines 35-46: the ball thrown at [beat], with the branch taken. *)
Definition resolveBallId (beat : Z) (st : LoopState)
    : IdSource * number * LoopState :=
  match catchAssignments st !! beat with
  | Some ballId =>
      (PendingLanding, ballId,
       {| flightsSoFar := flightsSoFar st;
          catchAssignments := delete beat (catchAssignments st);
          nextBallId := nextBallId st |})
  | None =>
      if nextBallId st <? balls then
        (Introduced, Int (nextBallId st),
         {| flightsSoFar := flightsSoFar st;
            catchAssignments := catchAssignments st;
            nextBallId := nextBallId st + 1 |})
      else (Fallback, jsRem beat balls, st)
  end.

(** One iteration of the loop body. *)
Definition planBeat (beat : Z) (st : LoopState) : outcome LoopState :=
  let throwValue := throwAt pattern (Z.rem beat patternPeriod) in
  let fromHand := handOf beat in
  let toHand := handOf (beat + throwValue) in
  let '(_, ballId, st) := resolveBallId beat st in
  if throwValue >? 0 then
    let landingBeat := beat + throwValue in
    match catchAssignments st !! landingBeat with
    | Some _ => Throw (Error MSG_CONFLICT)
    | None =>
        Return
          {| flightsSoFar :=
               flightsSoFar st ++
                 [{| flightId := showNumber ballId +:+ "-" +:+ pretty beat;
                     ballId := ballId;
                     throwValue := throwValue;
                     startBeat := beat;
                     endBeat := landingBeat;
                     fromHand := fromHand;
                     toHand := toHand |}];
             catchAssignments := <[landingBeat := ballId]> (catchAssignments st);
             nextBallId := nextBallId st |}
    end
  else Return st.

(** [n] iterations of the loop, the first one at [beat]. *)
Fixpoint planBeats (n : nat) (beat : Z) (st : LoopState) : outcome LoopState :=
  match n with
  | O => Return st
  | S n' => st' ← planBeat beat st; planBeats n' (beat + 1) st'
  end.

Definition totalBeatsOf (loops : Z) : Z :=
  Z.max (loops * patternPeriod) patternPeriod.

(** [loops] is [None] when the argument is omitted. *)
Definition buildSimulationPlan (loops : option Z) : outcome SimulationPlan :=
  let loops := default 6 loops in
  let totalBeats := totalBeatsOf loops in
  st ← planBeats (Z.to_nat totalBeats) 0 initialState;
  Return {| flights := flightsSoFar st; beats := totalBeats |}.

End Planner.

End Simulation.

(** ** Notions used to state the properties *)

Module Notions.
Import Siteswap Simulation.

(** No two throws of non-zero height share a landing slot. *)
Definition LandingsDistinct (pattern : list Z) : Prop :=
  forall (i j : nat) (vi vj : Z),
    pattern !! i = Some vi -> pattern !! j = Some vj ->
    vi <> 0 -> vj <> 0 ->
    Z.rem (Z.of_nat i + vi) (Z.of_nat (length pattern)) =
      Z.rem (Z.of_nat j + vj) (Z.of_nat (length pattern)) ->
    i = j.

(** Two throws of non-zero height land in [slot]. *)
Definition CollideAt (pattern : list Z) (slot : Z) : Prop :=
  exists (i j : nat) (vi vj : Z),
    (i < j)%nat /\ pattern !! i = Some vi /\ pattern !! j = Some vj /\
    vi <> 0 /\ vj <> 0 /\
    Z.rem (Z.of_nat i + vi) (Z.of_nat (length pattern)) = slot /\
    Z.rem (Z.of_nat j + vj) (Z.of_nat (length pattern)) = slot.

(** What [parseSiteswap] guarantees of the data it returns. *)
Record Accepted (d : SiteswapData) : Prop := {
  accepted_nonempty : pattern d <> [];
  accepted_period : period d = Z.of_nat (length (pattern d));
  accepted_heights : Forall (fun value => 0 <= value < 36) (pattern d);
  accepted_some_throw : allZero (pattern d) = false;
  accepted_average : balls d * period d = sumThrows (pattern d);
  accepted_balls : 1 <= balls d;
  accepted_landings : LandingsDistinct (pattern d);
  accepted_maxThrow : maxThrow d = maxOfList (pattern d)
}.

(** [s.startsWith(p)] and [s.includes(p)] on code-point lists. *)
Fixpoint startsWith (s p : jsstring) : bool :=
  match p, s with
  | [], _ => true
  | _ :: _, [] => false
  | x :: p', y :: s' => (x =? y)%N && startsWith s' p'
  end.

Fixpoint includes (s p : jsstring) : bool :=
  startsWith s p ||
  match s with
  | [] => false
  | _ :: s' => includes s' p
  end.

(** A message names the number [n] when it contains its decimal digits. *)
Definition namesNumber (message : jsstring) (n : Z) : bool :=
  includes message (lit (pretty n)).

Definition isDigit (c : N) : bool := ((48 <=? c) && (c <=? 57))%N.

(** The state at the head of the loop when [beat] iterations have run. *)
Definition stateBefore (pattern : list Z) (balls beat : Z) : outcome LoopState :=
  planBeats pattern balls (Z.to_nat beat) 0 initialState.

(** The branch the identity resolution takes at [beat]. *)
Definition idSourceAt (pattern : list Z) (balls beat : Z) : outcome IdSource :=
  st ← stateBefore pattern balls beat; Return (resolveBallId balls beat st).1.1.

(** The height thrown at an absolute beat. *)
Definition heightAt (pattern : list Z) (beat : Z) : Z :=
  throwAt pattern (Z.rem beat (Z.of_nat (length pattern))).

(** A throw made before [beat] lands at [beat]. *)
Definition landedOn (pattern : list Z) (beat : Z) : bool :=
  existsb (fun b => (heightAt pattern b >? 0) && (b + heightAt pattern b =? beat))
    (seqZ 0 beat).

(** The number of beats before [beat] at which no earlier throw lands. *)
Definition freeBeatsBefore (pattern : list Z) (beat : Z) : Z :=
  Z.of_nat (length (List.filter (fun b => negb (landedOn pattern b)) (seqZ 0 beat))).

(** The beats of [0, totalBeats) at which a ball is thrown, ascending. *)
Definition throwBeats (pattern : list Z) (totalBeats : Z) : list Z :=
  List.filter (fun b => heightAt pattern b >? 0) (seqZ 0 totalBeats).

(** The fields of a flight agree with the beat it was thrown at. *)
Record FlightOk (pattern : list Z) (f : Flight) : Prop := {
  ok_start : 0 <= startBeat f;
  ok_height : throwValue f = heightAt pattern (startBeat f);
  ok_thrown : 0 < throwValue f;
  ok_end : endBeat f = startBeat f + throwValue f;
  ok_from : fromHand f = handOf (startBeat f);
  ok_to : toHand f = handOf (startBeat f + throwValue f)
}.

(** An identifier of the pool [0 .. balls - 1]. *)
Definition InPool (balls : Z) (id : number) : Prop :=
  exists n : Z, id = Int n /\ 0 <= n < balls.

(** The branch the identity resolution takes at [beat], read off the
    pattern alone. *)
Definition expectedSource (pattern : list Z) (balls beat : Z) : IdSource :=
  if landedOn pattern beat then PendingLanding
  else if freeBeatsBefore pattern beat <? balls then Introduced
  else Fallback.

(** The plan of the cascade [3] with three balls over two repetitions. *)
Definition cascadeFlight0 : Flight :=
  {| flightId := "0-0"; ballId := Int 0; throwValue := 3;
     startBeat := 0; endBeat := 3; fromHand := Left; toHand := Right |}.

Definition cascadeFlight1 : Flight :=
  {| flightId := "1-1"; ballId := Int 1; throwValue := 3;
     startBeat := 1; endBeat := 4; fromHand := Right; toHand := Left |}.

Definition cascadePlan : SimulationPlan :=
  {| flights := [cascadeFlight0; cascadeFlight1]; beats := 2 |}.

(** The second flight of the pattern [4; 0] with two balls. *)
Definition secondFlight40 : Flight :=
  {| flightId := "0-2"; ballId := Int 0; throwValue := 4;
     startBeat := 2; endBeat := 6; fromHand := Left; toHand := Left |}.

End Notions.

(** ** App.tsx: the memoised values computed from the input *)

Module App.
Import Siteswap Simulation.

Definition MSG_UNABLE : jsstring := lit "Unable to parse siteswap.".

(** The value of the [parsed] memo; [None] is [null]. *)
Record Parsed : Type := {
  data : option SiteswapData;
  error : option jsstring
}.

(** Truthiness of a [string | null]. *)
Definition truthy (s : option jsstring) : bool :=
  match s with
  | None | Some [] => false
  | Some (_ :: _) => true
  end.

Section Memo.

Variable toLowerCase : jsstring -> jsstring.
Variable fitsArguments : Z -> bool.

(** The [try] / [catch] around [parseSiteswap]. *)
Definition parsed (siteswap : jsstring) : Parsed :=
  match parseSiteswap toLowerCase fitsArguments siteswap with
  | Return d => {| data := Some d; error := None |}
  | Throw e =>
      let message :=
        match e with
        | SiteswapError message => message
        | Error _ | RangeError => MSG_UNABLE
        end in
      {| data := None; error := Some message |}
  end.

(** The [plan] memo; the call is outside any [try]. *)
Definition plan (parsed : Parsed) : outcome (option SimulationPlan) :=
  match data parsed with
  | None => Return None
  | Some d =>
      p ← buildSimulationPlan (pattern d) (balls d) None;
      Return (Some p)
  end.

End Memo.

(** [plan ? plan.beats * beatDuration : 0] *)
Definition totalDuration (plan : option SimulationPlan) (beatDuration : Z) : Z :=
  match plan with
  | Some p => beats p * beatDuration
  | None => 0
  end.

(** [parsed.error && ...]: the error paragraph is rendered. *)
Definition showsError (p : Parsed) : bool := truthy (error p).

(** [!parsed.data && !parsed.error && ...]: the prompt paragraph is
    rendered. *)
Definition showsPrompt (p : Parsed) : bool :=
  negb (bool_decide (is_Some (data p))) && negb (truthy (error p)).

End App.

(** ** Further notions *)

Module MoreNotions.
Import Siteswap Simulation Notions.

(** The code points of the digits and of the lower-case letters. *)
Definition isLowerAlnum (c : N) : bool :=
  ((48 <=? c) && (c <=? 57) || (97 <=? c) && (c <=? 122))%N.

(** The height a supported character stands for. *)
Definition heightOfChar (c : N) : Z :=
  if ((48 <=? c) && (c <=? 57))%N then Z.of_N c - 48 else Z.of_N c - 87.

(** Two throws made before [total] land at the same beat. *)
Definition ConflictBefore (pattern : list Z) (total : Z) : Prop :=
  exists b1 b2 : Z,
    0 <= b1 < b2 /\ b2 < total /\
    0 < heightAt pattern b1 /\ 0 < heightAt pattern b2 /\
    b1 + heightAt pattern b1 = b2 + heightAt pattern b2.

(** The number of throws in one period. *)
Definition throwsPerPeriod (pattern : list Z) : Z :=
  Z.of_nat (length (List.filter (fun value => value >? 0) pattern)).

(** The sum of a list of integers. *)
Definition sumList (l : list Z) : Z := foldr Z.add 0 l.

(** The beat at which the throw made at [beat] lands. *)
Definition landingOf (pattern : list Z) (beat : Z) : Z := beat + heightAt pattern beat.

(** The plan of the pattern [1] with one ball over two repetitions. *)
Definition passFlight0 : Flight :=
  {| flightId := "0-0"; ballId := Int 0; throwValue := 1;
     startBeat := 0; endBeat := 1; fromHand := Left; toHand := Right |}.

Definition passFlight1 : Flight :=
  {| flightId := "0-1"; ballId := Int 0; throwValue := 1;
     startBeat := 1; endBeat := 2; fromHand := Right; toHand := Left |}.

Definition passPlan : SimulationPlan :=
  {| flights := [passFlight0; passFlight1]; beats := 2 |}.

End MoreNotions.

(** * Properties of the validator *)

Module SiteswapFacts.
Import Siteswap Notions.

Lemma indexOfFrom_bounds (s : jsstring) (char : N) (i : Z) :
  indexOfFrom s char i = -1 \/
  i <= indexOfFrom s char i < i + Z.of_nat (length s).
Proof.
  revert i. induction s as [|c rest IH]; intros i; simpl.
  - by left.
  - destruct (c =? char)%N; [right; lia|].
    destruct (IH (i + 1)) as [H|H]; [by left | right; lia].
Qed.

Lemma indexOf_CHAR_MAP_range (char : N) :
  indexOf CHAR_MAP char <> -1 -> 0 <= indexOf CHAR_MAP char < 36.
Proof.
  intros Hne. unfold indexOf in *.
  destruct (indexOfFrom_bounds CHAR_MAP char 0) as [H|H]; [congruence|].
  change (Z.of_nat (length CHAR_MAP)) with 36 in H. lia.
Qed.

(** The loop over the characters returns the heights of all of them,
    none of which is negative. *)
Lemma readThrows_Return (cleaned : jsstring) (acc pattern : list Z) :
  readThrows cleaned acc = Return pattern ->
  pattern = acc ++ List.map (indexOf CHAR_MAP) cleaned /\
  Forall (fun char => 0 <= indexOf CHAR_MAP char < 36) cleaned.
Proof.
  revert acc. induction cleaned as [|char rest IH]; intros acc; simpl.
  - intros [= <-]. by rewrite app_nil_r.
  - destruct (indexOf CHAR_MAP char =? -1) eqn:E; [done|].
    intros H. apply IH in H as [-> Hall]. split.
    + by rewrite <- app_assoc.
    + constructor; [|done]. apply indexOf_CHAR_MAP_range. lia.
Qed.

Lemma readThrows_heights (cleaned : jsstring) (pattern : list Z) :
  readThrows cleaned [] = Return pattern ->
  Forall (fun value => 0 <= value < 36) pattern /\ length pattern = length cleaned.
Proof.
  intros H. apply readThrows_Return in H as [-> Hall]. simpl. split.
  - by apply Forall_fmap.
  - by rewrite length_map.
Qed.

Lemma fold_left_add_shift (l : list Z) (a : Z) :
  fold_left Z.add l a = a + fold_left Z.add l 0.
Proof.
  revert a. induction l as [|x l IH]; intros a; simpl; [lia|].
  rewrite (IH (a + x)), (IH (0 + x)). lia.
Qed.

Lemma sumThrows_cons (x : Z) (l : list Z) : sumThrows (x :: l) = x + sumThrows l.
Proof. unfold sumThrows. simpl. rewrite fold_left_add_shift. lia. Qed.

Lemma sumThrows_nonneg (l : list Z) :
  Forall (fun value => 0 <= value) l -> 0 <= sumThrows l.
Proof.
  induction 1 as [|x l Hx _ IH]; [done|]. rewrite sumThrows_cons. lia.
Qed.

(** A pattern of non-negative heights that is not all zeros has a
    positive sum. *)
Lemma sumThrows_pos (l : list Z) :
  Forall (fun value => 0 <= value) l -> allZero l = false -> 0 < sumThrows l.
Proof.
  induction 1 as [|x l Hx Hl IH]; simpl; [done|].
  rewrite sumThrows_cons. pose proof (sumThrows_nonneg l Hl).
  destruct (x =? 0) eqn:E; simpl; intros Hz; [apply IH in Hz|]; lia.
Qed.

(** When the division of a positive sum leaves no remainder, the quotient
    is at least one. *)
Lemma quotient_ge_1 (sum period : Z) :
  0 < period -> 0 < sum -> isIntegerQuotient sum period = true ->
  1 <= sum / period /\ sum = sum / period * period.
Proof.
  unfold isIntegerQuotient. intros Hp Hs Hrem.
  rewrite Z.rem_mod_nonneg in Hrem by lia.
  assert (sum mod period = 0) as Hmod by lia.
  pose proof (Z.div_mod sum period ltac:(lia)) as Hdm.
  rewrite Hmod in Hdm. split; [nia|lia].
Qed.

Lemma checkLandings_Throw (period : Z) (values : list Z) (index : Z)
    (landings : gset Z) (e : exn) :
  checkLandings period values index landings = Throw e ->
  e = SiteswapError MSG_COLLISION.
Proof.
  revert index landings. induction values as [|value rest IH]; intros index landings; simpl.
  - done.
  - destruct (value =? 0); [apply IH|].
    case_decide; [by intros [= <-] | apply IH].
Qed.

(** When the collision test returns, the slots of the non-zero throws it
    went through are pairwise distinct and were not taken before. *)
Lemma checkLandings_Return (period : Z) (values : list Z) (index : Z)
    (landings out : gset Z) :
  checkLandings period values index landings = Return out ->
  (forall (i : nat) (vi : Z),
      values !! i = Some vi -> vi <> 0 ->
      Z.rem (index + Z.of_nat i + vi) period ∉ landings) /\
  (forall (i j : nat) (vi vj : Z),
      values !! i = Some vi -> values !! j = Some vj -> vi <> 0 -> vj <> 0 ->
      Z.rem (index + Z.of_nat i + vi) period = Z.rem (index + Z.of_nat j + vj) period ->
      i = j).
Proof.
  revert index landings.
  induction values as [|value rest IH]; intros index landings; simpl.
  - intros _. split; intros; simplify_eq.
  - destruct (value =? 0) eqn:Hz.
    + intros H. apply IH in H as [Hfresh Hdist]. split.
      * intros [|i] vi Hi Hvi; simpl in Hi; [simplify_eq; lia|].
        replace (index + Z.of_nat (S i)) with (index + 1 + Z.of_nat i) by lia. eauto.
      * intros [|i] [|j] vi vj Hi Hj Hvi Hvj; simpl in Hi, Hj;
          try (simplify_eq; lia).
        replace (index + Z.of_nat (S i)) with (index + 1 + Z.of_nat i) by lia.
        replace (index + Z.of_nat (S j)) with (index + 1 + Z.of_nat j) by lia.
        intros Heq. f_equal. eauto.
    + case_decide as Hin; [done|].
      intros H. apply IH in H as [Hfresh Hdist].
      assert (forall (i : nat) (vi : Z), rest !! i = Some vi -> vi <> 0 ->
                (Z.rem (index + Z.of_nat (S i) + vi) period ∉ landings) /\
                Z.rem (index + Z.of_nat (S i) + vi) period <> Z.rem (index + value) period)
        as Hrest.
      { intros i vi Hi Hvi.
        replace (index + Z.of_nat (S i)) with (index + 1 + Z.of_nat i) by lia.
        specialize (Hfresh i vi Hi Hvi).
        apply not_elem_of_union in Hfresh as [Hne Hnot].
        split; [done | by apply not_elem_of_singleton in Hne]. }
      split.
      * intros [|i] vi Hi Hvi; simpl in Hi.
        -- simplify_eq. by replace (index + Z.of_nat 0 + vi) with (index + vi) by lia.
        -- by apply Hrest.
      * intros [|i] [|j] vi vj Hi Hj Hvi Hvj; simpl in Hi, Hj.
        -- done.
        -- simplify_eq. replace (index + Z.of_nat 0 + vi) with (index + vi) by lia.
           intros Heq. by destruct (Hrest j vj Hj Hvj) as [_ []].
        -- simplify_eq. replace (index + Z.of_nat 0 + vj) with (index + vj) by lia.
           intros Heq. by destruct (Hrest i vi Hi Hvi) as [_ []].
        -- replace (index + Z.of_nat (S i)) with (index + 1 + Z.of_nat i) by lia.
           replace (index + Z.of_nat (S j)) with (index + 1 + Z.of_nat j) by lia.
           intros Heq. f_equal. eauto.
Qed.

Lemma checkLandings_distinct (pattern : list Z) (out : gset Z) :
  checkLandings (Z.of_nat (length pattern)) pattern 0 ∅ = Return out ->
  LandingsDistinct pattern.
Proof.
  intros H. apply checkLandings_Return in H as [_ Hdist].
  intros i j vi vj Hi Hj Hvi Hvj Heq. by apply (Hdist i j vi vj).
Qed.

(** When the collision test throws, a slot is taken twice: either by a
    throw it went through and a slot of [landings], or by two throws. *)
Lemma checkLandings_collision (period : Z) (values : list Z) (index : Z)
    (landings : gset Z) (e : exn) :
  checkLandings period values index landings = Throw e ->
  exists (j : nat) (vj : Z),
    values !! j = Some vj /\ vj <> 0 /\
    (Z.rem (index + Z.of_nat j + vj) period ∈ landings \/
     exists (i : nat) (vi : Z),
       (i < j)%nat /\ values !! i = Some vi /\ vi <> 0 /\
       Z.rem (index + Z.of_nat i + vi) period = Z.rem (index + Z.of_nat j + vj) period).
Proof.
  revert index landings.
  induction values as [|value rest IH]; intros index landings; simpl; [done|].
  destruct (value =? 0) eqn:Hz.
  - intros H. apply IH in H as (j & vj & Hj & Hvj & Hcase).
    exists (S j), vj.
    replace (index + Z.of_nat (S j)) with (index + 1 + Z.of_nat j) by lia.
    split_and!; [done..|]. destruct Hcase as [Hin|(i & vi & Hlt & Hi & Hvi & Heq)]; [by left|].
    right. exists (S i), vi.
    replace (index + Z.of_nat (S i)) with (index + 1 + Z.of_nat i) by lia.
    split_and!; [lia|done..].
  - case_decide as Hin.
    + intros _. exists 0%nat, value.
      replace (index + Z.of_nat 0 + value) with (index + value) by lia.
      split_and!; [done|lia|by left].
    + intros H. apply IH in H as (j & vj & Hj & Hvj & Hcase).
      exists (S j), vj.
      replace (index + Z.of_nat (S j)) with (index + 1 + Z.of_nat j) by lia.
      split_and!; [done..|].
      destruct Hcase as [Hin'|(i & vi & Hlt & Hi & Hvi & Heq)].
      * apply elem_of_union in Hin' as [Hin'|Hin']; [|by left].
        apply elem_of_singleton in Hin'. right. exists 0%nat, value.
        replace (index + Z.of_nat 0 + value) with (index + value) by lia.
        split_and!; [lia|done|lia|done].
      * right. exists (S i), vi.
        replace (index + Z.of_nat (S i)) with (index + 1 + Z.of_nat i) by lia.
        split_and!; [lia|done..].
Qed.

Lemma checkLandings_CollideAt (pattern : list Z) (e : exn) :
  checkLandings (Z.of_nat (length pattern)) pattern 0 ∅ = Throw e ->
  exists slot : Z, CollideAt pattern slot.
Proof.
  intros H. apply checkLandings_collision in H as (j & vj & Hj & Hvj & Hcase).
  destruct Hcase as [Hin|(i & vi & Hlt & Hi & Hvi & Heq)]; [set_solver|].
  exists (Z.rem (Z.of_nat j + vj) (Z.of_nat (length pattern))), i, j, vi, vj.
  by split_and!.
Qed.

Lemma CollideAt_not_distinct (pattern : list Z) (slot : Z) :
  CollideAt pattern slot -> ~ LandingsDistinct pattern.
Proof.
  intros (i & j & vi & vj & Hlt & Hi & Hj & Hvi & Hvj & Hsi & Hsj) Hdist.
  assert (i = j) by (apply (Hdist i j vi vj); congruence). lia.
Qed.

Lemma heights_nonneg (pattern : list Z) :
  Forall (fun value => 0 <= value < 36) pattern ->
  Forall (fun value => 0 <= value) pattern.
Proof. intros H. eapply Forall_impl; [exact H|]. simpl. lia. Qed.

Section ParseFacts.

Variable toLowerCase : jsstring -> jsstring.
Variable fitsArguments : Z -> bool.

(** The checks an input went through when [parseSiteswap] returns. *)
Lemma parseSiteswap_Return (rawInput : jsstring) (d : SiteswapData) :
  parseSiteswap toLowerCase fitsArguments rawInput = Return d ->
  readThrows (cleanInput toLowerCase rawInput) [] = Return (pattern d) /\ Accepted d.
Proof.
  unfold parseSiteswap.
  destruct (cleanInput toLowerCase rawInput) as [|c cleaned] eqn:Hclean; [done|].
  destruct (readThrows (c :: cleaned) []) as [|pat] eqn:Hread; [done|]. simpl.
  destruct (allZero pat) eqn:Hzero; [done|].
  destruct (isIntegerQuotient _ _) eqn:Hint; [|done]. simpl.
  destruct (checkLandings _ pat 0 ∅) as [|out] eqn:Hland; [done|]. simpl.
  destruct (_ <? 1) eqn:Hballs; [done|].
  unfold mathMax. destruct (fitsArguments _) eqn:Hfits; [|done]. simpl. intros [= <-].
  destruct (readThrows_heights _ _ Hread) as [Hheights Hlen].
  assert (0 < Z.of_nat (length pat)) as Hperiod by (rewrite Hlen; simpl; lia).
  pose proof (sumThrows_pos pat (heights_nonneg _ Hheights) Hzero) as Hsum.
  destruct (quotient_ge_1 _ _ Hperiod Hsum Hint) as [Hge Hmul].
  split; [done|]. constructor; simpl; try done.
  - intros ->. simpl in Hperiod. lia.
  - by eapply checkLandings_distinct.
Qed.

(** The last check never fails, whatever the input. *)
Lemma parseSiteswap_not_no_ball (rawInput : jsstring) :
  parseSiteswap toLowerCase fitsArguments rawInput <> Throw (SiteswapError MSG_NO_BALL).
Proof.
  unfold parseSiteswap.
  destruct (cleanInput toLowerCase rawInput) as [|c cleaned] eqn:Hclean; [done|].
  destruct (readThrows (c :: cleaned) []) as [e|pat] eqn:Hread; simpl.
  - intros [= ->]. revert Hread. generalize (@nil Z). generalize (c :: cleaned).
    induction l as [|char rest IH]; intros acc; simpl; [done|].
    destruct (_ =? -1); [done|apply IH].
  - destruct (allZero pat) eqn:Hzero; [done|].
    destruct (isIntegerQuotient _ _) eqn:Hint; [|done]. simpl.
    destruct (checkLandings _ pat 0 ∅) as [e|out] eqn:Hland; simpl.
    { apply checkLandings_Throw in Hland as ->. done. }
    destruct (readThrows_heights _ _ Hread) as [Hheights Hlen].
    assert (0 < Z.of_nat (length pat)) as Hperiod by (rewrite Hlen; simpl; lia).
    pose proof (sumThrows_pos pat (heights_nonneg _ Hheights) Hzero) as Hsum.
    destruct (quotient_ge_1 _ _ Hperiod Hsum Hint) as [Hge Hmul].
    destruct (_ <? 1) eqn:Hballs; [lia|].
    unfold mathMax. by destruct (fitsArguments _).
Qed.

(** An input whose collision test throws is rejected with the collision
    message. *)
Lemma parseSiteswap_collision (rawInput : jsstring) (pat : list Z) (e : exn) :
  readThrows (cleanInput toLowerCase rawInput) [] = Return pat ->
  allZero pat = false ->
  isIntegerQuotient (sumThrows pat) (Z.of_nat (length pat)) = true ->
  checkLandings (Z.of_nat (length pat)) pat 0 ∅ = Throw e ->
  parseSiteswap toLowerCase fitsArguments rawInput = Throw (SiteswapError MSG_COLLISION).
Proof.
  intros Hread Hzero Hint Hland. unfold parseSiteswap.
  destruct (cleanInput toLowerCase rawInput) as [|c cleaned] eqn:Hclean.
  { simpl in Hread. by simplify_eq. }
  rewrite Hread. simpl. rewrite Hzero, Hint. simpl. rewrite Hland. simpl.
  by apply checkLandings_Throw in Hland as ->.
Qed.

End ParseFacts.

End SiteswapFacts.

(** * The validator: scenarios and failure branches *)

Module ValidatorClaims.
Import Siteswap Notions SiteswapFacts.

Example parse_531 :
  parseSiteswap asciiToLowerCase typicalLimit (lit "5 3 1") =
  Return {| pattern := [5; 3; 1]; period := 3; balls := 3; maxThrow := 5 |}.
Proof. vm_compute. reflexivity. Qed.

Example parse_61 :
  parseSiteswap asciiToLowerCase typicalLimit (lit "61") = Throw (SiteswapError MSG_AVERAGE).
Proof. vm_compute. reflexivity. Qed.

Lemma collide_240 : CollideAt [2; 4; 0] 2.
Proof. exists 0%nat, 1%nat, 2, 4. split_and!; first [reflexivity | lia]. Qed.

Lemma collide_321 : CollideAt [3; 2; 1] 0.
Proof. exists 0%nat, 1%nat, 3, 2. split_and!; first [reflexivity | lia]. Qed.

(** C8. The input 240 is not empty, has only supported characters, is not
    all zeros (heights 2, 4, 0) and has an integer average (sum 6, period 3,
    two balls); the throws at indices 0 and 1 both land in slot 2, and
    validation fails with the collision error. *)
Theorem parse_240_collision (toLowerCase : jsstring -> jsstring)
    (fitsArguments : Z -> bool) :
  toLowerCase (lit "240") = lit "240" ->
  cleanInput toLowerCase (lit "240") = lit "240" /\
  readThrows (lit "240") [] = Return [2; 4; 0] /\
  allZero [2; 4; 0] = false /\
  sumThrows [2; 4; 0] = 6 /\
  Z.of_nat (length [2; 4; 0]) = 3 /\
  isIntegerQuotient 6 3 = true /\
  6 / 3 = 2 /\
  Z.rem (0 + 2) 3 = 2 /\
  Z.rem (1 + 4) 3 = 2 /\
  CollideAt [2; 4; 0] 2 /\
  parseSiteswap toLowerCase fitsArguments (lit "240") = Throw (SiteswapError MSG_COLLISION).
Proof.
  intros Hlower.
  assert (cleanInput toLowerCase (lit "240") = lit "240") as Hclean.
  { unfold cleanInput. rewrite Hlower. reflexivity. }
  split_and!; try reflexivity; [done | apply collide_240 |].
  unfold parseSiteswap. rewrite Hclean. reflexivity.
Qed.

Lemma parse_240_collision_witness :
  asciiToLowerCase (lit "240") = lit "240" /\
  parseSiteswap asciiToLowerCase typicalLimit (lit "240") = Throw (SiteswapError MSG_COLLISION).
Proof.
  split; [reflexivity|].
  apply (parse_240_collision asciiToLowerCase typicalLimit). reflexivity.
Defined.

(** The collision message of 240, whose throws collide in slot 2, does not
    contain the number 2, nor any digit: the claim that the failure names
    the colliding beat does not hold. *)
Lemma collision_240_names_no_beat :
  parseSiteswap asciiToLowerCase typicalLimit (lit "240") = Throw (SiteswapError MSG_COLLISION) /\
  CollideAt [2; 4; 0] 2 /\
  namesNumber MSG_COLLISION 2 = false.
Proof. split_and!; [reflexivity | apply collide_240 | reflexivity]. Qed.

(** C9, amended. For a pattern that passed the earlier checks, the
    landing-slot distinctness check fails exactly when two non-zero throws
    land in the same slot, and the failure surfaced to the caller then
    carries the fixed collision message, which is the same whatever the
    slot and contains no digit. *)
Theorem collision_message_fixed (toLowerCase : jsstring -> jsstring)
    (fitsArguments : Z -> bool)
    (rawInput : jsstring) (pat : list Z) :
  readThrows (cleanInput toLowerCase rawInput) [] = Return pat ->
  allZero pat = false ->
  isIntegerQuotient (sumThrows pat) (Z.of_nat (length pat)) = true ->
  ((exists slot : Z, CollideAt pat slot) <->
   exists e : exn, checkLandings (Z.of_nat (length pat)) pat 0 ∅ = Throw e) /\
  (forall e : exn,
      checkLandings (Z.of_nat (length pat)) pat 0 ∅ = Throw e ->
      e = SiteswapError MSG_COLLISION /\
      parseSiteswap toLowerCase fitsArguments rawInput = Throw (SiteswapError MSG_COLLISION)) /\
  forallb (fun c => negb (isDigit c)) MSG_COLLISION = true.
Proof.
  intros Hread Hzero Hint. split_and!; [split| |reflexivity].
  - intros [slot Hcollide].
    destruct (checkLandings (Z.of_nat (length pat)) pat 0 ∅) as [e|out] eqn:Hland; [eauto|].
    apply checkLandings_distinct in Hland.
    by apply CollideAt_not_distinct in Hcollide.
  - intros [e Hland]. by eapply checkLandings_CollideAt.
  - intros e Hland. split; [by eapply checkLandings_Throw|].
    by eapply parseSiteswap_collision.
Qed.

Lemma collision_message_fixed_witness :
  parseSiteswap asciiToLowerCase typicalLimit (lit "321") = Throw (SiteswapError MSG_COLLISION) /\
  parseSiteswap asciiToLowerCase typicalLimit (lit "240") = Throw (SiteswapError MSG_COLLISION).
Proof.
  split.
  - destruct (collision_message_fixed asciiToLowerCase typicalLimit (lit "321") [3; 2; 1])
      as (_ & Hthrow & _); [reflexivity..|].
    apply (Hthrow (SiteswapError MSG_COLLISION)). reflexivity.
  - destruct (collision_message_fixed asciiToLowerCase typicalLimit (lit "240") [2; 4; 0])
      as (_ & Hthrow & _); [reflexivity..|].
    apply (Hthrow (SiteswapError MSG_COLLISION)). reflexivity.
Defined.

(** C10. For an input that passes the all-zero check and the
    integer-average check, the derived ball count is an integer that is at
    least one: the test [balls < 1] is false and the no-ball error is not
    thrown. *)
Theorem no_ball_branch_dead (toLowerCase : jsstring -> jsstring)
    (fitsArguments : Z -> bool)
    (rawInput : jsstring) (pat : list Z) :
  readThrows (cleanInput toLowerCase rawInput) [] = Return pat ->
  allZero pat = false ->
  isIntegerQuotient (sumThrows pat) (Z.of_nat (length pat)) = true ->
  sumThrows pat / Z.of_nat (length pat) * Z.of_nat (length pat) = sumThrows pat /\
  1 <= sumThrows pat / Z.of_nat (length pat) /\
  (sumThrows pat / Z.of_nat (length pat) <? 1) = false /\
  parseSiteswap toLowerCase fitsArguments rawInput <> Throw (SiteswapError MSG_NO_BALL).
Proof.
  intros Hread Hzero Hint.
  destruct (readThrows_heights _ _ Hread) as [Hheights Hlen].
  assert (0 < Z.of_nat (length pat)) as Hperiod.
  { destruct pat; [done | simpl; lia]. }
  pose proof (sumThrows_pos pat (heights_nonneg _ Hheights) Hzero) as Hsum.
  destruct (quotient_ge_1 _ _ Hperiod Hsum Hint) as [Hge Hmul].
  split_and!; [lia | done | lia | apply parseSiteswap_not_no_ball].
Qed.

Lemma no_ball_branch_dead_witness :
  1 <= sumThrows [4; 0] / Z.of_nat (length [4; 0]) /\
  parseSiteswap asciiToLowerCase typicalLimit (lit "40") <> Throw (SiteswapError MSG_NO_BALL).
Proof.
  pose proof (no_ball_branch_dead asciiToLowerCase typicalLimit (lit "40") [4; 0]) as H.
  destruct H as (_ & Hge & _ & Hne); [reflexivity..|]. by split.
Defined.

End ValidatorClaims.

(** * Properties of the planner *)

Module PlannerFacts.
Import Simulation Notions.

Section Loop.

Variable pattern : list Z.
Variable balls : Z.

Lemma bind_Return {A B : Type} (m : outcome A) (k : A -> outcome B) (b : B) :
  m ≫= k = Return b -> exists a : A, m = Return a /\ k a = Return b.
Proof. destruct m as [e|a]; simpl; [done | eauto]. Qed.

(** The last of [S n] iterations can be split off. *)
Lemma planBeats_snoc (n : nat) (beat : Z) (st : LoopState) :
  planBeats pattern balls (S n) beat st =
  planBeats pattern balls n beat st ≫= planBeat pattern balls (beat + Z.of_nat n).
Proof.
  revert beat st. induction n as [|n IH]; intros beat st.
  - simpl. replace (beat + Z.of_nat 0) with beat by lia.
    by destruct (planBeat pattern balls beat st).
  - change (planBeats pattern balls (S (S n)) beat st)
      with (planBeat pattern balls beat st ≫= planBeats pattern balls (S n) (beat + 1)).
    change (planBeats pattern balls (S n) beat st)
      with (planBeat pattern balls beat st ≫= planBeats pattern balls n (beat + 1)).
    destruct (planBeat pattern balls beat st) as [e|st1]; [done|].
    change (planBeats pattern balls (S n) (beat + 1) st1 =
            planBeats pattern balls n (beat + 1) st1
              ≫= planBeat pattern balls (beat + Z.of_nat (S n))).
    rewrite IH. by replace (beat + 1 + Z.of_nat n) with (beat + Z.of_nat (S n)) by lia.
Qed.

Lemma stateBefore_succ (beat : Z) :
  0 <= beat ->
  stateBefore pattern balls (beat + 1) =
  stateBefore pattern balls beat ≫= planBeat pattern balls beat.
Proof.
  intros Hbeat. unfold stateBefore.
  replace (Z.to_nat (beat + 1)) with (S (Z.to_nat beat)) by lia.
  rewrite planBeats_snoc. by replace (0 + Z.of_nat (Z.to_nat beat)) with beat by lia.
Qed.

(** Induction over the states the loop goes through. *)
Lemma stateBefore_ind (P : Z -> LoopState -> Prop) :
  P 0 initialState ->
  (forall (beat : Z) (st st' : LoopState),
      0 <= beat -> stateBefore pattern balls beat = Return st -> P beat st ->
      planBeat pattern balls beat st = Return st' -> P (beat + 1) st') ->
  forall (beat : Z) (st : LoopState),
    0 <= beat -> stateBefore pattern balls beat = Return st -> P beat st.
Proof.
  intros Hinit Hstep beat st Hbeat. revert st.
  pattern beat. apply natlike_ind; [| |done]; clear beat Hbeat.
  - intros st [= <-]. done.
  - intros beat Hbeat IH st. unfold Z.succ. rewrite stateBefore_succ by done.
    intros Hst. apply bind_Return in Hst as (st0 & Hst0 & Hplan). eauto.
Qed.

Lemma buildSimulationPlan_Return (loops : option Z) (plan : SimulationPlan) :
  buildSimulationPlan pattern balls loops = Return plan ->
  exists st : LoopState,
    stateBefore pattern balls (totalBeatsOf pattern (default 6 loops)) = Return st /\
    plan = {| flights := flightsSoFar st;
              beats := totalBeatsOf pattern (default 6 loops) |}.
Proof.
  unfold buildSimulationPlan. intros H.
  apply bind_Return in H as (st & Hst & [= <-]). eauto.
Qed.

Lemma totalBeatsOf_nonneg (loops : Z) : 0 <= totalBeatsOf pattern loops.
Proof. unfold totalBeatsOf, patternPeriod. lia. Qed.

(** What one iteration does to the state. *)
Lemma planBeat_Return (beat : Z) (st st' : LoopState) :
  planBeat pattern balls beat st = Return st' ->
  let v := heightAt pattern beat in
  let r := resolveBallId balls beat st in
  (v <= 0 /\ st' = r.2) \/
  (0 < v /\ catchAssignments r.2 !! (beat + v) = None /\
   st' = {| flightsSoFar :=
              flightsSoFar r.2 ++
                [{| flightId := showNumber r.1.2 +:+ "-" +:+ pretty beat;
                    ballId := r.1.2;
                    throwValue := v;
                    startBeat := beat;
                    endBeat := beat + v;
                    fromHand := handOf beat;
                    toHand := handOf (beat + v) |}];
            catchAssignments := <[beat + v := r.1.2]> (catchAssignments r.2);
            nextBallId := nextBallId r.2 |}).
Proof.
  unfold planBeat, heightAt, patternPeriod. simpl.
  destruct (resolveBallId balls beat st) as [[src id] st1]. simpl.
  destruct (_ >? 0) eqn:Hv.
  - destruct (catchAssignments st1 !! _) eqn:Hc; [done|].
    intros [= <-]. right. split_and!; [lia|done..].
  - intros [= <-]. left. split; [lia|done].
Qed.

Lemma resolveBallId_flights (beat : Z) (st : LoopState) :
  flightsSoFar (resolveBallId balls beat st).2 = flightsSoFar st.
Proof.
  unfold resolveBallId. destruct (catchAssignments st !! beat); [done|].
  by destruct (_ <? _).
Qed.

(** The identity resolution removes the entry of the current beat, if any,
    and leaves the rest of the table alone. *)
Lemma resolveBallId_catch (beat : Z) (st : LoopState) :
  catchAssignments (resolveBallId balls beat st).2 = delete beat (catchAssignments st).
Proof.
  unfold resolveBallId. destruct (catchAssignments st !! beat) eqn:Hc; [done|].
  rewrite delete_id by done. by destruct (_ <? _).
Qed.

Lemma throwBeats_succ (beat : Z) :
  0 <= beat ->
  throwBeats pattern (beat + 1) =
  throwBeats pattern beat ++ (if heightAt pattern beat >? 0 then [beat] else []).
Proof.
  intros Hbeat. unfold throwBeats.
  rewrite seqZ_app by lia. rewrite List.filter_app. simpl.
  change (seqZ (0 + beat) 1) with [0 + beat]. simpl.
  by replace (0 + beat) with beat by lia.
Qed.

(** The flights emitted before [beat] start at the beats of [0, beat) with
    a positive height, in ascending order, and each has the fields the loop
    body computes at its beat. *)
Lemma flights_invariant (beat : Z) (st : LoopState) :
  0 <= beat -> stateBefore pattern balls beat = Return st ->
  List.map startBeat (flightsSoFar st) = throwBeats pattern beat /\
  Forall (FlightOk pattern) (flightsSoFar st).
Proof.
  revert beat st. apply stateBefore_ind.
  - split; [reflexivity | constructor].
  - intros beat st st' Hbeat _ [IHstarts IHok] Hplan.
    apply planBeat_Return in Hplan. simpl in Hplan.
    rewrite resolveBallId_flights in Hplan.
    rewrite throwBeats_succ by done.
    destruct Hplan as [[Hv ->]|(Hv & _ & ->)].
    + rewrite resolveBallId_flights.
      destruct (_ >? 0) eqn:E; [lia|]. by rewrite app_nil_r.
    + simpl. destruct (_ >? 0) eqn:E; [|lia].
      rewrite List.map_app, IHstarts. split; [done|].
      apply Forall_app. split; [done|]. constructor; [|constructor].
      by constructor.
Qed.

Lemma jsRem_pool (beat : Z) :
  1 <= balls -> 0 <= beat -> InPool balls (jsRem beat balls).
Proof.
  intros Hballs Hbeat. unfold jsRem.
  destruct (balls =? 0) eqn:E; [lia|].
  exists (Z.rem beat balls). split; [done|]. apply Z.rem_bound_pos; lia.
Qed.

(** With a pool of at least one ball, every identifier in the table and in
    the flights is in the pool. *)
Lemma pool_invariant (beat : Z) (st : LoopState) :
  1 <= balls ->
  0 <= beat -> stateBefore pattern balls beat = Return st ->
  0 <= nextBallId st /\
  map_Forall (fun _ id => InPool balls id) (catchAssignments st) /\
  Forall (fun f => InPool balls (ballId f)) (flightsSoFar st).
Proof.
  intros Hballs. revert beat st. apply stateBefore_ind.
  - split_and!; [done | apply map_Forall_empty | constructor].
  - intros beat st st' Hbeat _ (IHnext & IHtable & IHflights) Hplan.
    apply planBeat_Return in Hplan. simpl in Hplan.
    assert (InPool balls (resolveBallId balls beat st).1.2 /\
            0 <= nextBallId (resolveBallId balls beat st).2 /\
            map_Forall (fun _ id => InPool balls id)
              (catchAssignments (resolveBallId balls beat st).2) /\
            Forall (fun f => InPool balls (ballId f))
              (flightsSoFar (resolveBallId balls beat st).2)) as Hres.
    { unfold resolveBallId.
      destruct (catchAssignments st !! beat) as [id|] eqn:Hc; simpl.
      - split_and!; [by eapply IHtable | done | by apply map_Forall_delete | done].
      - destruct (nextBallId st <? balls) eqn:Hlt; simpl.
        + split_and!; [exists (nextBallId st); split; [done|lia] | lia | done..].
        + split_and!; [by apply jsRem_pool | done..]. }
    destruct Hres as (Hid & Hnext & Htable & Hflights).
    destruct Hplan as [[_ ->]|(_ & _ & ->)]; simpl; [done|].
    split_and!; [done | by apply map_Forall_insert_2 |].
    apply Forall_app. split; [done|]. by constructor.
Qed.

Lemma landedOn_true (beat : Z) :
  landedOn pattern beat = true <->
  exists b : Z, 0 <= b < beat /\ 0 < heightAt pattern b /\ b + heightAt pattern b = beat.
Proof.
  unfold landedOn. rewrite existsb_exists. split.
  - intros (b & Hin & Hb). apply list_elem_of_In, elem_of_seqZ in Hin.
    exists b. lia.
  - intros (b & Hrange & Hv & Hland). exists b. split; [|lia].
    apply list_elem_of_In, elem_of_seqZ. lia.
Qed.

Lemma freeBeatsBefore_nonneg (beat : Z) : 0 <= freeBeatsBefore pattern beat.
Proof. unfold freeBeatsBefore. lia. Qed.

Lemma freeBeatsBefore_le (beat : Z) : 0 <= beat -> freeBeatsBefore pattern beat <= beat.
Proof.
  intros Hbeat. unfold freeBeatsBefore.
  pose proof (List.filter_length_le (fun b => negb (landedOn pattern b)) (seqZ 0 beat)) as Hle.
  rewrite length_seqZ in Hle. lia.
Qed.

Lemma freeBeatsBefore_succ (beat : Z) :
  0 <= beat ->
  freeBeatsBefore pattern (beat + 1) =
  freeBeatsBefore pattern beat + (if landedOn pattern beat then 0 else 1).
Proof.
  intros Hbeat. unfold freeBeatsBefore.
  rewrite seqZ_app by lia. rewrite List.filter_app, length_app.
  change (seqZ (0 + beat) 1) with [0 + beat]. simpl.
  replace (0 + beat) with beat by lia.
  destruct (landedOn pattern beat); simpl; lia.
Qed.

(** The pending-landing table holds exactly the landings, not yet reached,
    of the throws made so far, and the number of identifiers introduced is
    the number of beats without a landing, capped by the size of the pool. *)
Lemma table_invariant (beat : Z) (st : LoopState) :
  0 <= beat -> stateBefore pattern balls beat = Return st ->
  (forall k : Z,
      is_Some (catchAssignments st !! k) <->
      beat <= k /\
      exists b : Z, 0 <= b < beat /\ 0 < heightAt pattern b /\ b + heightAt pattern b = k) /\
  nextBallId st = Z.min (Z.max balls 0) (freeBeatsBefore pattern beat).
Proof.
  revert beat st. apply stateBefore_ind.
  - split; [|change (freeBeatsBefore pattern 0) with 0; simpl; lia].
    intros k. simpl. rewrite lookup_empty. split.
    + by intros [? ?].
    + intros (_ & b & ? & _). lia.
  - intros beat st st' Hbeat _ [IHtable IHnext] Hplan.
    apply planBeat_Return in Hplan. simpl in Hplan.
    rewrite resolveBallId_catch in Hplan.
    assert (nextBallId (resolveBallId balls beat st).2 =
            Z.min (Z.max balls 0) (freeBeatsBefore pattern (beat + 1))) as Hnext.
    { rewrite freeBeatsBefore_succ by done.
      pose proof (freeBeatsBefore_nonneg beat) as Hfree.
      unfold resolveBallId.
      destruct (catchAssignments st !! beat) as [id|] eqn:Hc; simpl.
      - assert (landedOn pattern beat = true) as ->; [|lia].
        apply landedOn_true. apply IHtable. by rewrite Hc.
      - assert (landedOn pattern beat = false) as ->.
        { apply not_true_is_false. intros Hl. apply landedOn_true in Hl.
          assert (is_Some (catchAssignments st !! beat)) as [? ?]
            by (apply IHtable; split; [lia|done]).
          congruence. }
        destruct (nextBallId st <? balls) eqn:Hlt; simpl; lia. }
    destruct Hplan as [[Hv ->]|(Hv & _ & ->)]; simpl.
    + split; [|done]. intros k. rewrite resolveBallId_catch.
      rewrite lookup_delete_is_Some, IHtable. split.
      * intros (Hne & Hle & b & Hb & Hvb & Hk). split; [lia|]. exists b. lia.
      * intros (Hle & b & Hb & Hvb & Hk).
        assert (b <> beat) by (intros ->; lia).
        split; [lia|]. split; [lia|]. exists b. lia.
    + split; [|done]. intros k.
      rewrite lookup_insert_is_Some, lookup_delete_is_Some, IHtable. split.
      * intros [<-|(Hne1 & Hne2 & Hle & b & Hb & Hvb & Hk)].
        -- split; [lia|]. exists beat. lia.
        -- split; [lia|]. exists b. lia.
      * intros (Hle & b & Hb & Hvb & Hk).
        destruct (decide (beat + heightAt pattern beat = k)) as [Heq|Hne]; [by left|].
        right. split; [done|]. split; [lia|]. split; [lia|].
        exists b. assert (b <> beat) by (intros ->; lia). lia.
Qed.

(** The branch taken at a beat the loop reaches is the one read off the
    pattern. *)
Lemma resolveBallId_source (beat : Z) (st : LoopState) :
  0 <= beat -> stateBefore pattern balls beat = Return st ->
  (resolveBallId balls beat st).1.1 = expectedSource pattern balls beat.
Proof.
  intros Hbeat Hst. destruct (table_invariant beat st Hbeat Hst) as [Htable Hnext].
  pose proof (freeBeatsBefore_nonneg beat) as Hfree.
  unfold resolveBallId, expectedSource.
  destruct (catchAssignments st !! beat) as [id|] eqn:Hc; simpl.
  - assert (landedOn pattern beat = true) as ->; [|done].
    apply landedOn_true. apply Htable. by rewrite Hc.
  - assert (landedOn pattern beat = false) as ->.
    { apply not_true_is_false. intros Hl. apply landedOn_true in Hl.
      assert (is_Some (catchAssignments st !! beat)) as [? ?]
        by (apply Htable; split; [lia|done]).
      congruence. }
    destruct (nextBallId st <? balls) eqn:Hlt;
      destruct (freeBeatsBefore pattern beat <? balls) eqn:Hlt'; simpl; try done; lia.
Qed.

Lemma throwBeats_elem (total b : Z) :
  b ∈ throwBeats pattern total <-> 0 <= b < total /\ 0 < heightAt pattern b.
Proof.
  unfold throwBeats. rewrite list_elem_of_In, filter_In, <- list_elem_of_In, elem_of_seqZ.
  lia.
Qed.

Lemma throwBeats_sorted (total : Z) :
  0 <= total -> StronglySorted Z.lt (throwBeats pattern total).
Proof.
  intros Htotal. pattern total. apply natlike_ind; [| |done]; clear total Htotal.
  - constructor.
  - intros total Htotal IH. unfold Z.succ. rewrite throwBeats_succ by done.
    apply StronglySorted_app. split_and!; [|done|].
    + intros b1 b2 Hb1 Hb2. apply throwBeats_elem in Hb1.
      destruct (_ >? 0); [|by apply elem_of_nil in Hb2].
      apply list_elem_of_singleton in Hb2. lia.
    + destruct (_ >? 0); repeat constructor.
Qed.

Lemma sorted_lt_NoDup (l : list Z) : StronglySorted Z.lt l -> NoDup l.
Proof.
  induction 1 as [|x l _ IH Hall]; constructor; [|done].
  intros Hin. rewrite Forall_forall in Hall. specialize (Hall x Hin). lia.
Qed.

(** Every flight carries the identifier resolved at its start beat. *)
Lemma flight_identity (beat : Z) (st : LoopState) :
  0 <= beat -> stateBefore pattern balls beat = Return st ->
  Forall (fun f =>
            exists st0 : LoopState,
              stateBefore pattern balls (startBeat f) = Return st0 /\
              ballId f = (resolveBallId balls (startBeat f) st0).1.2)
    (flightsSoFar st).
Proof.
  revert beat st. apply stateBefore_ind.
  - constructor.
  - intros beat st st' Hbeat Hst IH Hplan.
    apply planBeat_Return in Hplan. simpl in Hplan.
    destruct Hplan as [[_ ->]|(_ & _ & ->)]; simpl; rewrite resolveBallId_flights; [done|].
    apply Forall_app. split; [done|]. constructor; [|constructor]. simpl. eauto.
Qed.

Lemma resolveBallId_fallback (beat : Z) (st : LoopState) :
  (resolveBallId balls beat st).1.1 = Fallback ->
  (resolveBallId balls beat st).1.2 = jsRem beat balls.
Proof.
  unfold resolveBallId. destruct (catchAssignments st !! beat); [done|].
  by destruct (_ <? _).
Qed.

Lemma idSourceAt_Return (beat : Z) (st : LoopState) :
  stateBefore pattern balls beat = Return st ->
  idSourceAt pattern balls beat = Return (resolveBallId balls beat st).1.1.
Proof. intros Hst. unfold idSourceAt. by rewrite Hst. Qed.

Lemma handOf_even (beat : Z) : handOf beat = if Z.even beat then Left else Right.
Proof.
  unfold handOf. destruct (Z.even beat) eqn:Heven.
  - apply Z.even_spec in Heven as [k ->].
    replace (2 * k) with (k * 2) by lia. by rewrite Z.rem_mul.
  - destruct (Z.rem beat 2 =? 0) eqn:Hrem; [|done].
    assert (Z.even beat = true); [|congruence].
    apply Z.even_spec. exists (Z.quot beat 2).
    pose proof (Z.quot_rem beat 2 ltac:(lia)). lia.
Qed.

Section NonEmpty.

Hypothesis pattern_nonempty : pattern <> [].

Lemma patternPeriod_pos : 0 < Z.of_nat (length pattern).
Proof. destruct pattern; [done | simpl; lia]. Qed.

(** The index the loop reads at a beat is within the array, and is the
    beat modulo the period. *)
Lemma heightAt_lookup (beat : Z) :
  0 <= beat ->
  Z.rem beat (Z.of_nat (length pattern)) = beat mod Z.of_nat (length pattern) /\
  pattern !! Z.to_nat (beat mod Z.of_nat (length pattern)) = Some (heightAt pattern beat).
Proof.
  intros Hbeat. pose proof patternPeriod_pos as Hp.
  assert (Z.rem beat (Z.of_nat (length pattern)) = beat mod Z.of_nat (length pattern)) as Hrem
    by (apply Z.rem_mod_nonneg; lia).
  split; [done|]. unfold heightAt, throwAt. rewrite Hrem, nth_lookup.
  pose proof (Z.mod_pos_bound beat (Z.of_nat (length pattern)) Hp) as Hbound.
  destruct (lookup_lt_is_Some_2 pattern (Z.to_nat (beat mod Z.of_nat (length pattern))))
    as [v Hv]; [lia|]. by rewrite Hv.
Qed.

Hypothesis landings_distinct : LandingsDistinct pattern.

(** Two throws that land at the same absolute beat are the same throw. *)
Lemma landing_beat_inj (b1 b2 : Z) :
  0 <= b1 -> 0 <= b2 ->
  0 < heightAt pattern b1 -> 0 < heightAt pattern b2 ->
  b1 + heightAt pattern b1 = b2 + heightAt pattern b2 ->
  b1 = b2.
Proof.
  intros Hb1 Hb2 Hv1 Hv2 Hland. pose proof patternPeriod_pos as Hp.
  destruct (heightAt_lookup b1 Hb1) as [_ Hl1].
  destruct (heightAt_lookup b2 Hb2) as [_ Hl2].
  pose proof (Z.mod_pos_bound b1 _ Hp) as Hbound1.
  pose proof (Z.mod_pos_bound b2 _ Hp) as Hbound2.
  assert (Z.to_nat (b1 mod Z.of_nat (length pattern)) =
          Z.to_nat (b2 mod Z.of_nat (length pattern))) as Hidx.
  { apply (landings_distinct _ _ _ _ Hl1 Hl2); [lia..|].
    rewrite !Z2Nat.id by lia. rewrite !Z.rem_mod_nonneg by lia.
    rewrite !Zplus_mod_idemp_l. by rewrite Hland. }
  rewrite Hidx in Hl1. assert (heightAt pattern b1 = heightAt pattern b2) by congruence.
  lia.
Qed.

(** The landing beat of a throw is free when the throw is made. *)
Lemma landing_beat_free (beat : Z) (st : LoopState) :
  0 <= beat -> stateBefore pattern balls beat = Return st ->
  0 < heightAt pattern beat ->
  catchAssignments (resolveBallId balls beat st).2 !! (beat + heightAt pattern beat) = None.
Proof.
  intros Hbeat Hst Hv. rewrite resolveBallId_catch.
  apply eq_None_not_Some. rewrite lookup_delete_is_Some.
  destruct (table_invariant beat st Hbeat Hst) as [Htable _].
  rewrite Htable. intros (_ & _ & b & Hb & Hvb & Hland).
  assert (b = beat) by (apply landing_beat_inj; lia). lia.
Qed.

Lemma planBeat_returns (beat : Z) (st : LoopState) :
  0 <= beat -> stateBefore pattern balls beat = Return st ->
  exists st' : LoopState, planBeat pattern balls beat st = Return st'.
Proof.
  intros Hbeat Hst. pose proof (landing_beat_free beat st Hbeat Hst) as Hfree.
  unfold planBeat. unfold heightAt in Hfree. unfold patternPeriod.
  destruct (resolveBallId balls beat st) as [[src id] st1]. simpl in *.
  destruct (_ >? 0) eqn:Hv; [|eauto].
  rewrite Hfree by lia. eauto.
Qed.

(** The loop reaches every beat. *)
Lemma stateBefore_returns (beat : Z) :
  0 <= beat -> exists st : LoopState, stateBefore pattern balls beat = Return st.
Proof.
  intros Hbeat. pattern beat. apply natlike_ind; [| |done]; clear beat Hbeat.
  - by exists initialState.
  - intros beat Hbeat [st Hst]. unfold Z.succ. rewrite stateBefore_succ by done.
    rewrite Hst. simpl. by apply planBeat_returns.
Qed.

(** The branch taken at a beat is the one read off the pattern. *)
Lemma idSourceAt_expected (beat : Z) :
  0 <= beat ->
  idSourceAt pattern balls beat = Return (expectedSource pattern balls beat).
Proof.
  intros Hbeat. destruct (stateBefore_returns beat Hbeat) as [st Hst].
  rewrite (idSourceAt_Return _ _ Hst). f_equal. by apply resolveBallId_source.
Qed.

Lemma buildSimulationPlan_returns (loops : option Z) :
  exists plan : SimulationPlan, buildSimulationPlan pattern balls loops = Return plan.
Proof.
  destruct (stateBefore_returns (totalBeatsOf pattern (default 6 loops))) as [st Hst];
    [apply totalBeatsOf_nonneg|].
  unfold buildSimulationPlan. unfold stateBefore in Hst. rewrite Hst. simpl. eauto.
Qed.

End NonEmpty.

End Loop.

End PlannerFacts.

(** * The planner: the schedule it builds *)

Module PlannerClaims.
Import Siteswap Simulation Notions SiteswapFacts PlannerFacts.

Example plan_cascade : buildSimulationPlan [3] 3 (Some 2) = Return cascadePlan.
Proof. vm_compute. reflexivity. Qed.

Lemma flights_of_plan (pattern : list Z) (balls : Z) (loops : option Z)
    (plan : SimulationPlan) :
  buildSimulationPlan pattern balls loops = Return plan ->
  exists st : LoopState,
    0 <= beats plan /\
    beats plan = totalBeatsOf pattern (default 6 loops) /\
    stateBefore pattern balls (beats plan) = Return st /\
    flights plan = flightsSoFar st.
Proof.
  intros H. apply buildSimulationPlan_Return in H as (st & Hst & ->). simpl.
  exists st. split_and!; [apply totalBeatsOf_nonneg | done..].
Qed.

Lemma flight_ok (pattern : list Z) (balls : Z) (loops : option Z)
    (plan : SimulationPlan) (f : Flight) :
  buildSimulationPlan pattern balls loops = Return plan ->
  f ∈ flights plan -> FlightOk pattern f.
Proof.
  intros H Hf. apply flights_of_plan in H as (st & Hnn & _ & Hst & Hfl).
  destruct (flights_invariant pattern balls _ st Hnn Hst) as [_ Hok].
  rewrite Hfl in Hf. rewrite Forall_forall in Hok. auto.
Qed.

(** C1. A pattern accepted by the validator, planned with its derived ball
    count and any repetitions (given or omitted), never reaches the
    landing-conflict branch: the loop reaches every beat, at every beat
    with a throw the landing beat has no entry in the pending-landing
    table, and a plan is returned. *)
Theorem accepted_pattern_never_conflicts (toLowerCase : jsstring -> jsstring)
    (fitsArguments : Z -> bool)
    (rawInput : jsstring) (d : SiteswapData) (loops : option Z) :
  parseSiteswap toLowerCase fitsArguments rawInput = Return d ->
  (forall beat : Z,
      0 <= beat < totalBeatsOf (pattern d) (default 6 loops) ->
      exists st st' : LoopState,
        stateBefore (pattern d) (balls d) beat = Return st /\
        (0 < heightAt (pattern d) beat ->
         catchAssignments (resolveBallId (balls d) beat st).2
           !! (beat + heightAt (pattern d) beat) = None) /\
        planBeat (pattern d) (balls d) beat st = Return st') /\
  exists plan : SimulationPlan,
    buildSimulationPlan (pattern d) (balls d) loops = Return plan.
Proof.
  intros Hparse. apply parseSiteswap_Return in Hparse as [_ Hacc].
  destruct Hacc as [Hne _ _ _ _ _ Hdist _]. split.
  - intros beat [Hbeat _].
    destruct (stateBefore_returns (pattern d) (balls d) Hne Hdist beat Hbeat) as [st Hst].
    destruct (planBeat_returns (pattern d) (balls d) Hne Hdist beat st Hbeat Hst) as [st' Hst'].
    exists st, st'. split_and!; [done| |done].
    by apply landing_beat_free.
  - by apply buildSimulationPlan_returns.
Qed.

Lemma accepted_pattern_never_conflicts_witness :
  exists plan : SimulationPlan, buildSimulationPlan [5; 3; 1] 3 (Some 6) = Return plan.
Proof.
  apply (accepted_pattern_never_conflicts asciiToLowerCase typicalLimit (lit "531")
           {| pattern := [5; 3; 1]; period := 3; balls := 3; maxThrow := 5 |} (Some 6)).
  reflexivity.
Defined.

(** C2. The code breaks the property at the accepted pattern 40, planned
    as the application plans it (two balls, repetitions omitted). Beat 1,
    of height zero, takes the second identifier although nothing is thrown
    there; at beat 2, of height 4, no landing is pending and no identifier
    is left, so the fallback resolves the ball, and its value [2 % 2] is
    the ball of the flight emitted at beat 2. That flight throws ball 0
    while the flight of ball 0 thrown at beat 0 is in the air until beat 4;
    every flight of the plan carries ball 0 and ball 1 never flies. *)
Theorem fallback_rethrows_airborne_ball_40 :
  parseSiteswap asciiToLowerCase typicalLimit (lit "40") =
    Return {| pattern := [4; 0]; period := 2; balls := 2; maxThrow := 4 |} /\
  idSourceAt [4; 0] 2 0 = Return Introduced /\
  idSourceAt [4; 0] 2 1 = Return Introduced /\
  throwAt [4; 0] (Z.rem 1 (patternPeriod [4; 0])) = 0 /\
  idSourceAt [4; 0] 2 2 = Return Fallback /\
  throwAt [4; 0] (Z.rem 2 (patternPeriod [4; 0])) = 4 /\
  exists plan : SimulationPlan,
    buildSimulationPlan [4; 0] 2 None = Return plan /\
    beats plan = 12 /\
    flights plan !! 1%nat = Some secondFlight40 /\
    ballId secondFlight40 = jsRem 2 2 /\
    List.map (fun f => (ballId f, startBeat f, endBeat f)) (flights plan) =
      [(Int 0, 0, 4); (Int 0, 2, 6); (Int 0, 4, 8);
       (Int 0, 6, 10); (Int 0, 8, 12); (Int 0, 10, 14)].
Proof.
  split_and!; try reflexivity.
  eexists. split_and!; [vm_compute; reflexivity | reflexivity..].
Qed.

(** The fallback also resolves a throw without any beat of height zero
    before it: 2200 is accepted with one ball, because the collision test
    skips the heights zero, and the throw at beat 1 is resolved by the
    fallback. *)
Example fallback_throws_in_2200 :
  parseSiteswap asciiToLowerCase typicalLimit (lit "2200") =
    Return {| pattern := [2; 2; 0; 0]; period := 4; balls := 1; maxThrow := 2 |} /\
  idSourceAt [2; 2; 0; 0] 1 1 = Return Fallback /\
  heightAt [2; 2; 0; 0] 1 = 2.
Proof. split_and!; reflexivity. Qed.

(** C3. The start beats of the flights of a plan are, in order, the beats
    of [0, totalBeats) at which the pattern has a positive height: each
    such beat occurs once, and the list is strictly ascending. *)
Theorem flights_start_beats (pattern : list Z) (balls : Z) (loops : option Z)
    (plan : SimulationPlan) :
  pattern <> [] ->
  buildSimulationPlan pattern balls loops = Return plan ->
  List.map startBeat (flights plan) = throwBeats pattern (beats plan) /\
  (forall b : Z,
      b ∈ List.map startBeat (flights plan) <->
      0 <= b < beats plan /\
      exists v : Z,
        pattern !! Z.to_nat (b mod Z.of_nat (length pattern)) = Some v /\ 0 < v) /\
  NoDup (List.map startBeat (flights plan)) /\
  StronglySorted Z.lt (List.map startBeat (flights plan)).
Proof.
  intros Hne H. apply flights_of_plan in H as (st & Hnn & _ & Hst & Hfl).
  destruct (flights_invariant pattern balls _ st Hnn Hst) as [Hstarts _].
  rewrite Hfl, Hstarts.
  pose proof (throwBeats_sorted pattern (beats plan) Hnn) as Hsorted.
  split_and!; [done| |by apply sorted_lt_NoDup|done].
  intros b. rewrite throwBeats_elem. split.
  - intros [Hb Hv]. split; [done|]. exists (heightAt pattern b).
    split; [|done]. apply heightAt_lookup; [done|lia].
  - intros [Hb (v & Hv & Hpos)]. split; [done|].
    destruct (heightAt_lookup pattern Hne b) as [_ Hl]; [lia|]. congruence.
Qed.

Lemma flights_start_beats_witness :
  List.map startBeat (flights cascadePlan) = throwBeats [3] (beats cascadePlan).
Proof.
  apply (flights_start_beats [3] 3 (Some 2) cascadePlan); [done | reflexivity].
Defined.

(** C4. With a ball count of at least one, the identifier of every flight
    is an integer of [0, ballCount), whichever branch resolved it. *)
Theorem flight_ball_in_pool (pattern : list Z) (balls : Z) (loops : option Z)
    (plan : SimulationPlan) (f : Flight) :
  1 <= balls ->
  buildSimulationPlan pattern balls loops = Return plan ->
  f ∈ flights plan ->
  exists n : Z, ballId f = Int n /\ 0 <= n < balls.
Proof.
  intros Hballs H Hf. apply flights_of_plan in H as (st & Hnn & _ & Hst & Hfl).
  destruct (pool_invariant pattern balls _ st Hballs Hnn Hst) as (_ & _ & Hpool).
  rewrite Hfl in Hf. rewrite Forall_forall in Hpool. by apply Hpool.
Qed.

Lemma cascadeFlight1_in_plan : cascadeFlight1 ∈ flights cascadePlan.
Proof. apply list_elem_of_further, list_elem_of_here. Qed.

Lemma flight_ball_in_pool_witness :
  exists n : Z, ballId cascadeFlight1 = Int n /\ 0 <= n < 3.
Proof.
  apply (flight_ball_in_pool [3] 3 (Some 2) cascadePlan cascadeFlight1);
    [lia | reflexivity | apply cascadeFlight1_in_plan].
Defined.

(** C5. The source hand of a flight is the left one exactly when its start
    beat is even and the right one otherwise; the destination hand is the
    left one exactly when start beat plus height is even. An odd height
    changes hands, an even height returns to the same hand. *)
Theorem flight_hands_by_parity (pattern : list Z) (balls : Z) (loops : option Z)
    (plan : SimulationPlan) (f : Flight) :
  buildSimulationPlan pattern balls loops = Return plan ->
  f ∈ flights plan ->
  (fromHand f = Left <-> Z.even (startBeat f) = true) /\
  (fromHand f = Right <-> Z.even (startBeat f) = false) /\
  (toHand f = Left <-> Z.even (startBeat f + throwValue f) = true) /\
  (toHand f = Right <-> Z.even (startBeat f + throwValue f) = false) /\
  (Z.odd (throwValue f) = true -> toHand f <> fromHand f) /\
  (Z.even (throwValue f) = true -> toHand f = fromHand f).
Proof.
  intros H Hf. destruct (flight_ok _ _ _ _ _ H Hf) as [_ _ _ _ Hfrom Hto].
  rewrite Hfrom, Hto, !handOf_even, Z.even_add, <- Z.negb_even.
  destruct (Z.even (startBeat f)), (Z.even (throwValue f)); simpl;
    split_and!; (done || (split; done)).
Qed.

Lemma flight_hands_by_parity_witness :
  fromHand cascadeFlight1 = Right /\ toHand cascadeFlight1 <> fromHand cascadeFlight1.
Proof.
  destruct (flight_hands_by_parity [3] 3 (Some 2) cascadePlan cascadeFlight1)
    as (_ & Hfrom & _ & _ & Hodd & _);
    [reflexivity | apply cascadeFlight1_in_plan |].
  split; [by apply Hfrom | by apply Hodd].
Defined.

(** C6. The beat count of a returned plan is the larger of repetitions
    times period and period, with six repetitions when the argument is
    omitted; it is at least one full period. *)
Theorem plan_total_beats (pattern : list Z) (balls : Z) (loops : option Z)
    (plan : SimulationPlan) :
  pattern <> [] ->
  buildSimulationPlan pattern balls loops = Return plan ->
  beats plan = Z.max (default 6 loops * Z.of_nat (length pattern)) (Z.of_nat (length pattern)) /\
  (loops = None -> beats plan = 6 * Z.of_nat (length pattern)) /\
  1 <= Z.of_nat (length pattern) <= beats plan.
Proof.
  intros Hne H. apply flights_of_plan in H as (st & _ & Hbeats & _).
  unfold totalBeatsOf, patternPeriod in Hbeats.
  pose proof (patternPeriod_pos pattern Hne) as Hp.
  split_and!; [done | intros ->; simpl in Hbeats | ..]; lia.
Qed.

Lemma plan_total_beats_witness : beats cascadePlan = Z.max (2 * 1) 1.
Proof.
  destruct (plan_total_beats [3] 3 (Some 2) cascadePlan) as (Hbeats & _);
    [done | reflexivity | exact Hbeats].
Defined.

(** C7. The end beat of a flight is its start beat plus its height, and
    the height is the element of the pattern at the start beat modulo the
    period. *)
Theorem flight_end_beat (pattern : list Z) (balls : Z) (loops : option Z)
    (plan : SimulationPlan) (f : Flight) :
  buildSimulationPlan pattern balls loops = Return plan ->
  f ∈ flights plan ->
  endBeat f - startBeat f = throwValue f /\
  endBeat f = startBeat f + throwValue f /\
  pattern !! Z.to_nat (startBeat f mod Z.of_nat (length pattern)) = Some (throwValue f).
Proof.
  intros H Hf. destruct (flight_ok _ _ _ _ _ H Hf) as [Hstart Hheight Hpos Hend _ _].
  split_and!; [lia | done |].
  assert (pattern <> []) as Hne.
  { intros ->. unfold heightAt, throwAt in Hheight. rewrite nth_lookup in Hheight.
    rewrite lookup_nil in Hheight. simpl in Hheight. lia. }
  rewrite Hheight. by apply heightAt_lookup.
Qed.

Lemma flight_end_beat_witness :
  endBeat cascadeFlight1 - startBeat cascadeFlight1 = throwValue cascadeFlight1.
Proof.
  destruct (flight_end_beat [3] 3 (Some 2) cascadePlan cascadeFlight1) as (Hdiff & _);
    [reflexivity | apply cascadeFlight1_in_plan | exact Hdiff].
Defined.

End PlannerClaims.

(** * Further properties of the validator *)

Module ValidatorExtras.
Import Siteswap Notions MoreNotions SiteswapFacts.

(** The position of a character in the alphabet: digits stand for 0 to 9,
    lower-case letters for 10 to 35, nothing else is found. *)
Lemma indexOf_CHAR_MAP (c : N) :
  indexOf CHAR_MAP c = if isLowerAlnum c then heightOfChar c else -1.
Proof.
  assert (CHAR_MAP =
      [48; 49; 50; 51; 52; 53; 54; 55; 56; 57; 97; 98; 99; 100; 101; 102;
       103; 104; 105; 106; 107; 108; 109; 110; 111; 112; 113; 114;
       115; 116; 117; 118; 119; 120; 121; 122]%N) as -> by reflexivity.
  unfold indexOf. cbn [indexOfFrom].
  repeat match goal with
         | |- context [(?a =? c)%N] =>
             destruct (N.eqb_spec a c) as [<-|?]; [reflexivity|]
         end.
  unfold isLowerAlnum.
  destruct ((48 <=? c) && (c <=? 57) || (97 <=? c) && (c <=? 122))%N eqn:E; [|done].
  exfalso. rewrite orb_true_iff, !andb_true_iff, !N.leb_le in E. lia.
Qed.

Lemma heightOfChar_range (c : N) :
  isLowerAlnum c = true -> 0 <= heightOfChar c < 36.
Proof.
  unfold isLowerAlnum, heightOfChar. intros H.
  rewrite orb_true_iff, !andb_true_iff, !N.leb_le in H.
  destruct ((48 <=? c) && (c <=? 57))%N eqn:E.
  - rewrite andb_true_iff, !N.leb_le in E. lia.
  - rewrite andb_false_iff, !N.leb_gt in E. lia.
Qed.

Lemma heightOfChar_zero (c : N) :
  isLowerAlnum c = true -> heightOfChar c = 0 <-> c = 48%N.
Proof.
  unfold isLowerAlnum, heightOfChar. intros H.
  rewrite orb_true_iff, !andb_true_iff, !N.leb_le in H.
  destruct ((48 <=? c) && (c <=? 57))%N eqn:E.
  - rewrite andb_true_iff, !N.leb_le in E. lia.
  - rewrite andb_false_iff, !N.leb_gt in E. lia.
Qed.

(** X20. The height of a character is its position in the alphabet:
    the digits 0 to 9 stand for 0 to 9, the lower-case letters a to z for
    10 to 35, and no other character is found; upper-case letters are
    found only through the lower-casing of the input. *)
Theorem alphabet_heights (c : N) :
  (isLowerAlnum c = true ->
   indexOf CHAR_MAP c = heightOfChar c /\ 0 <= indexOf CHAR_MAP c < 36) /\
  (isLowerAlnum c = false -> indexOf CHAR_MAP c = -1) /\
  ((48 <= c <= 57)%N -> indexOf CHAR_MAP c = Z.of_N c - 48) /\
  ((97 <= c <= 122)%N -> indexOf CHAR_MAP c = Z.of_N c - 87) /\
  ((65 <= c <= 90)%N -> indexOf CHAR_MAP c = -1).
Proof.
  rewrite indexOf_CHAR_MAP. unfold isLowerAlnum, heightOfChar. split_and!.
  - intros Hc. rewrite Hc. split; [done|]. by apply heightOfChar_range.
  - by intros ->.
  - intros Hc.
    assert (((48 <=? c) && (c <=? 57))%N = true) as ->
      by (rewrite andb_true_iff, !N.leb_le; lia).
    done.
  - intros Hc.
    assert (((48 <=? c) && (c <=? 57))%N = false) as ->
      by (rewrite andb_false_iff, !N.leb_gt; lia).
    assert (((97 <=? c) && (c <=? 122))%N = true) as ->
      by (rewrite andb_true_iff, !N.leb_le; lia).
    done.
  - intros Hc.
    assert (((48 <=? c) && (c <=? 57))%N = false) as ->
      by (rewrite andb_false_iff, !N.leb_gt; lia).
    assert (((97 <=? c) && (c <=? 122))%N = false) as ->
      by (rewrite andb_false_iff, !N.leb_gt; lia).
    done.
Qed.

Lemma alphabet_heights_witness : indexOf CHAR_MAP 122 = 35.
Proof.
  destruct (alphabet_heights 122) as (_ & _ & _ & Hletter & _).
  apply Hletter. lia.
Defined.

(** The character loop returns the heights of the characters when all of
    them are supported. *)
Lemma readThrows_supported (cleaned : jsstring) (acc : list Z) :
  forallb isLowerAlnum cleaned = true ->
  readThrows cleaned acc = Return (acc ++ List.map heightOfChar cleaned).
Proof.
  revert acc. induction cleaned as [|c rest IH]; intros acc; simpl.
  - intros _. by rewrite app_nil_r.
  - rewrite andb_true_iff. intros [Hc Hrest].
    rewrite indexOf_CHAR_MAP, Hc.
    pose proof (heightOfChar_range c Hc) as Hrange.
    destruct (heightOfChar c =? -1) eqn:E; [lia|].
    rewrite IH by done. by rewrite <- app_assoc.
Qed.

(** The character loop stops at the first unsupported character. *)
Lemma readThrows_unsupported (pre post : jsstring) (c : N) (acc : list Z) :
  forallb isLowerAlnum pre = true ->
  isLowerAlnum c = false ->
  readThrows (pre ++ c :: post) acc = Throw (SiteswapError (MSG_UNSUPPORTED c)).
Proof.
  revert acc. induction pre as [|x pre IH]; intros acc; simpl.
  - intros _ Hc. by rewrite indexOf_CHAR_MAP, Hc.
  - rewrite andb_true_iff. intros [Hx Hpre] Hc.
    rewrite indexOf_CHAR_MAP, Hx.
    pose proof (heightOfChar_range x Hx) as Hrange.
    destruct (heightOfChar x =? -1) eqn:E; [lia|]. by apply IH.
Qed.

Lemma readThrows_Return_supported (cleaned : jsstring) (acc pat : list Z) :
  readThrows cleaned acc = Return pat -> forallb isLowerAlnum cleaned = true.
Proof.
  revert acc. induction cleaned as [|c rest IH]; intros acc; simpl; [done|].
  rewrite indexOf_CHAR_MAP. destruct (isLowerAlnum c) eqn:Hc; simpl; [|done].
  destruct (heightOfChar c =? -1); [done|]. apply IH.
Qed.

Lemma readThrows_Throw (cleaned : jsstring) (acc : list Z) (e : exn) :
  readThrows cleaned acc = Throw e ->
  exists (pre post : jsstring) (c : N),
    cleaned = pre ++ c :: post /\ forallb isLowerAlnum pre = true /\
    isLowerAlnum c = false /\ e = SiteswapError (MSG_UNSUPPORTED c).
Proof.
  revert acc. induction cleaned as [|c rest IH]; intros acc; simpl; [done|].
  rewrite indexOf_CHAR_MAP. destruct (isLowerAlnum c) eqn:Hc; simpl.
  - pose proof (heightOfChar_range c Hc) as Hrange.
    destruct (heightOfChar c =? -1) eqn:E; [lia|].
    intros H. apply IH in H as (pre & post & x & -> & Hpre & Hx & ->).
    exists (c :: pre), post, x. simpl. by rewrite Hc, Hpre.
  - intros [= <-]. by exists [], rest, c.
Qed.

(** The collision test returns when the landing slots are distinct. *)
Lemma checkLandings_returns (pat : list Z) :
  LandingsDistinct pat ->
  exists out : gset Z, checkLandings (Z.of_nat (length pat)) pat 0 ∅ = Return out.
Proof.
  intros Hdist.
  destruct (checkLandings (Z.of_nat (length pat)) pat 0 ∅) as [e|out] eqn:Hland; [|eauto].
  apply checkLandings_CollideAt in Hland as [slot Hslot].
  by apply CollideAt_not_distinct in Hslot.
Qed.

Section Checks.

Variable toLowerCase : jsstring -> jsstring.
Variable fitsArguments : Z -> bool.

(** The checks that follow the character loop. *)
Lemma parseSiteswap_after_read (rawInput : jsstring) (pat : list Z) :
  readThrows (cleanInput toLowerCase rawInput) [] = Return pat ->
  pat <> [] ->
  parseSiteswap toLowerCase fitsArguments rawInput =
  if allZero pat then Throw (SiteswapError MSG_ALL_ZERO)
  else if negb (isIntegerQuotient (sumThrows pat) (Z.of_nat (length pat)))
  then Throw (SiteswapError MSG_AVERAGE)
  else
    checkLandings (Z.of_nat (length pat)) pat 0 ∅ ≫= fun _ =>
    if sumThrows pat / Z.of_nat (length pat) <? 1
    then Throw (SiteswapError MSG_NO_BALL)
    else
      mathMax fitsArguments pat ≫= fun maxThrow =>
      Return {| pattern := pat; period := Z.of_nat (length pat);
                balls := sumThrows pat / Z.of_nat (length pat);
                maxThrow := maxThrow |}.
Proof.
  intros Hread Hne. unfold parseSiteswap.
  destruct (cleanInput toLowerCase rawInput) as [|c cleaned] eqn:Hclean.
  - simpl in Hread. by simplify_eq.
  - by rewrite Hread.
Qed.

Lemma parseSiteswap_empty (rawInput : jsstring) :
  cleanInput toLowerCase rawInput = [] ->
  parseSiteswap toLowerCase fitsArguments rawInput = Throw (SiteswapError MSG_EMPTY).
Proof. intros Hclean. unfold parseSiteswap. by rewrite Hclean. Qed.

Lemma parseSiteswap_read_Throw (rawInput : jsstring) (e : exn) :
  readThrows (cleanInput toLowerCase rawInput) [] = Throw e ->
  parseSiteswap toLowerCase fitsArguments rawInput = Throw e.
Proof.
  intros Hread. unfold parseSiteswap.
  destruct (cleanInput toLowerCase rawInput) as [|c cleaned] eqn:Hclean; [done|].
  by rewrite Hread.
Qed.

End Checks.

Lemma stripWhitespace_nil (s : jsstring) :
  stripWhitespace s = [] <-> forallb isWhitespace s = true.
Proof.
  unfold stripWhitespace. induction s as [|c s IH]; simpl; [done|].
  destruct (isWhitespace c); simpl; [done|]. split; done.
Qed.

Lemma MSG_UNSUPPORTED_head (c : N) :
  exists tail : jsstring, MSG_UNSUPPORTED c = 85%N :: tail.
Proof. eexists. reflexivity. Qed.

(** The outcome of validation, check by check. *)
Lemma parseSiteswap_cases (toLowerCase : jsstring -> jsstring)
    (fitsArguments : Z -> bool) (rawInput : jsstring) :
  let cleaned := cleanInput toLowerCase rawInput in
  let pat := List.map heightOfChar cleaned in
  (cleaned = [] /\
   parseSiteswap toLowerCase fitsArguments rawInput = Throw (SiteswapError MSG_EMPTY)) \/
  (exists (pre post : jsstring) (c : N),
      cleaned = pre ++ c :: post /\ forallb isLowerAlnum pre = true /\
      isLowerAlnum c = false /\
      parseSiteswap toLowerCase fitsArguments rawInput =
        Throw (SiteswapError (MSG_UNSUPPORTED c))) \/
  (cleaned <> [] /\ forallb isLowerAlnum cleaned = true /\
   ((allZero pat = true /\
     parseSiteswap toLowerCase fitsArguments rawInput =
       Throw (SiteswapError MSG_ALL_ZERO)) \/
    (allZero pat = false /\
     Z.rem (sumThrows pat) (Z.of_nat (length pat)) <> 0 /\
     parseSiteswap toLowerCase fitsArguments rawInput =
       Throw (SiteswapError MSG_AVERAGE)) \/
    (allZero pat = false /\
     Z.rem (sumThrows pat) (Z.of_nat (length pat)) = 0 /\
     (exists slot : Z, CollideAt pat slot) /\
     parseSiteswap toLowerCase fitsArguments rawInput =
       Throw (SiteswapError MSG_COLLISION)) \/
    (allZero pat = false /\
     Z.rem (sumThrows pat) (Z.of_nat (length pat)) = 0 /\
     LandingsDistinct pat /\
     fitsArguments (Z.of_nat (length pat)) = false /\
     parseSiteswap toLowerCase fitsArguments rawInput = Throw RangeError) \/
    (allZero pat = false /\
     Z.rem (sumThrows pat) (Z.of_nat (length pat)) = 0 /\
     LandingsDistinct pat /\
     fitsArguments (Z.of_nat (length pat)) = true /\
     parseSiteswap toLowerCase fitsArguments rawInput =
       Return {| pattern := pat; period := Z.of_nat (length pat);
                 balls := sumThrows pat / Z.of_nat (length pat);
                 maxThrow := maxOfList pat |}))).
Proof.
  cbv zeta.
  destruct (cleanInput toLowerCase rawInput) as [|c0 rest] eqn:Hclean.
  { left. split; [done|]. by apply parseSiteswap_empty. }
  right. rewrite <- Hclean.
  assert (cleanInput toLowerCase rawInput <> []) as Hne0 by (by rewrite Hclean).
  clear c0 rest Hclean.
  destruct (readThrows (cleanInput toLowerCase rawInput) []) as [e|pat'] eqn:Hread.
  { left. rewrite (parseSiteswap_read_Throw _ fitsArguments _ _ Hread).
    apply readThrows_Throw in Hread as (pre & post & c & Hsplit & Hpre & Hc & ->).
    by exists pre, post, c. }
  right.
  pose proof (readThrows_Return_supported _ _ _ Hread) as Hsup.
  clear pat' Hread.
  pose proof (readThrows_supported _ [] Hsup) as Hread. simpl in Hread.
  set (pat := List.map heightOfChar (cleanInput toLowerCase rawInput)) in *.
  assert (pat <> []) as Hne.
  { unfold pat. by destruct (cleanInput toLowerCase rawInput). }
  split_and!; [done..|].
  rewrite (parseSiteswap_after_read toLowerCase fitsArguments rawInput pat Hread Hne).
  destruct (allZero pat) eqn:Hzero; [by left|]. right.
  unfold isIntegerQuotient.
  destruct (Z.rem (sumThrows pat) (Z.of_nat (length pat)) =? 0) eqn:Hint; simpl;
    [|left; split_and!; [done|lia|done]].
  right.
  destruct (checkLandings (Z.of_nat (length pat)) pat 0 ∅) as [e|out] eqn:Hland; simpl.
  - left. pose proof (checkLandings_CollideAt _ _ Hland) as Hcollide.
    apply checkLandings_Throw in Hland as ->. split_and!; [done|lia|done..].
  - right. apply checkLandings_distinct in Hland.
    assert (Forall (fun value => 0 <= value) pat) as Hheights.
    { unfold pat. apply Forall_fmap, Forall_forall. intros c Hc.
      rewrite forallb_forall in Hsup. apply list_elem_of_In, Hsup in Hc.
      apply heightOfChar_range in Hc. simpl. lia. }
    assert (0 < Z.of_nat (length pat)) as Hperiod by (destruct pat; [done | simpl; lia]).
    pose proof (sumThrows_pos pat Hheights Hzero) as Hsum.
    destruct (quotient_ge_1 (sumThrows pat) _ Hperiod Hsum) as [Hge _].
    { unfold isIntegerQuotient. lia. }
    destruct (_ <? 1) eqn:Hballs; [lia|]. unfold mathMax.
    destruct (fitsArguments (Z.of_nat (length pat))) eqn:Hfits; simpl.
    + right. split_and!; [done|lia|done..].
    + left. split_and!; [done|lia|done..].
Qed.

(** Closes a goal with a hypothesis that equates two outcomes of different
    shape or with different messages. *)
Ltac different_outcome :=
  match goal with
  | H : Throw _ = Return _ |- _ => discriminate H
  | H : Return _ = Throw _ |- _ => discriminate H
  | H : Throw RangeError = Throw (SiteswapError _) |- _ => discriminate H
  | H : Throw (SiteswapError _) = Throw RangeError |- _ => discriminate H
  | H : Throw (SiteswapError ?a) = Throw (SiteswapError ?b) |- _ =>
      injection H as H; vm_compute in H; discriminate H
  end.

(** X1. The outcome of validation, check by check: an input without any
    non-whitespace character is rejected as empty; otherwise the first
    character that is neither a digit nor a lower-case letter is reported;
    otherwise the heights are those of the characters, and the pattern is
    rejected when it is all zeros, then when the sum is not a multiple of
    the length, then when two non-zero throws share a landing slot;
    otherwise the call of [Math.max] throws the engine's [RangeError] when
    the engine does not accept as many arguments as there are heights, and
    the data is returned with its period, ball count and maximum when it
    does. *)
Theorem parseSiteswap_outcome (toLowerCase : jsstring -> jsstring)
    (fitsArguments : Z -> bool) (rawInput : jsstring) :
  let cleaned := cleanInput toLowerCase rawInput in
  let pat := List.map heightOfChar cleaned in
  (cleaned = [] /\
   parseSiteswap toLowerCase fitsArguments rawInput = Throw (SiteswapError MSG_EMPTY)) \/
  (exists (pre post : jsstring) (c : N),
      cleaned = pre ++ c :: post /\ forallb isLowerAlnum pre = true /\
      isLowerAlnum c = false /\
      parseSiteswap toLowerCase fitsArguments rawInput =
        Throw (SiteswapError (MSG_UNSUPPORTED c))) \/
  (cleaned <> [] /\ forallb isLowerAlnum cleaned = true /\
   ((allZero pat = true /\
     parseSiteswap toLowerCase fitsArguments rawInput =
       Throw (SiteswapError MSG_ALL_ZERO)) \/
    (allZero pat = false /\
     Z.rem (sumThrows pat) (Z.of_nat (length pat)) <> 0 /\
     parseSiteswap toLowerCase fitsArguments rawInput =
       Throw (SiteswapError MSG_AVERAGE)) \/
    (allZero pat = false /\
     Z.rem (sumThrows pat) (Z.of_nat (length pat)) = 0 /\
     (exists slot : Z, CollideAt pat slot) /\
     parseSiteswap toLowerCase fitsArguments rawInput =
       Throw (SiteswapError MSG_COLLISION)) \/
    (allZero pat = false /\
     Z.rem (sumThrows pat) (Z.of_nat (length pat)) = 0 /\
     LandingsDistinct pat /\
     fitsArguments (Z.of_nat (length pat)) = false /\
     parseSiteswap toLowerCase fitsArguments rawInput = Throw RangeError) \/
    (allZero pat = false /\
     Z.rem (sumThrows pat) (Z.of_nat (length pat)) = 0 /\
     LandingsDistinct pat /\
     fitsArguments (Z.of_nat (length pat)) = true /\
     parseSiteswap toLowerCase fitsArguments rawInput =
       Return {| pattern := pat; period := Z.of_nat (length pat);
                 balls := sumThrows pat / Z.of_nat (length pat);
                 maxThrow := maxOfList pat |}))).
Proof. apply parseSiteswap_cases. Qed.

(** The inputs the validator accepts. *)
Lemma accepts_iff (toLowerCase : jsstring -> jsstring)
    (fitsArguments : Z -> bool) (rawInput : jsstring) (d : SiteswapData) :
  parseSiteswap toLowerCase fitsArguments rawInput = Return d <->
  cleanInput toLowerCase rawInput <> [] /\
  forallb isLowerAlnum (cleanInput toLowerCase rawInput) = true /\
  allZero (List.map heightOfChar (cleanInput toLowerCase rawInput)) = false /\
  Z.rem (sumThrows (List.map heightOfChar (cleanInput toLowerCase rawInput)))
        (Z.of_nat (length (cleanInput toLowerCase rawInput))) = 0 /\
  LandingsDistinct (List.map heightOfChar (cleanInput toLowerCase rawInput)) /\
  fitsArguments (Z.of_nat (length (cleanInput toLowerCase rawInput))) = true /\
  d = {| pattern := List.map heightOfChar (cleanInput toLowerCase rawInput);
         period := Z.of_nat (length (cleanInput toLowerCase rawInput));
         balls := sumThrows (List.map heightOfChar (cleanInput toLowerCase rawInput))
                  / Z.of_nat (length (cleanInput toLowerCase rawInput));
         maxThrow := maxOfList (List.map heightOfChar (cleanInput toLowerCase rawInput)) |}.
Proof.
  pose proof (parseSiteswap_cases toLowerCase fitsArguments rawInput) as Hcases.
  cbv zeta in Hcases. rewrite length_map in Hcases.
  split.
  - intros Hret. rewrite Hret in Hcases.
    destruct Hcases
      as [[_ H]|[(pre & post & c & _ & _ & _ & H)|(Hne & Hsup & [[_ H]|[(_ & _ & H)|[(_ & _ & _ & H)|[(_ & _ & _ & _ & H)|(Hz & Hint & Hdist & Hfits & H)]]]])]];
      try different_outcome.
    by injection H as ->.
  - intros (Hne & Hsup & Hz & Hint & Hdist & Hfits & ->).
    destruct Hcases
      as [[Hnil _]|[(pre & post & c & Hsplit & _ & Hc & _)|(_ & _ & [[Hz' _]|[(_ & Hint' & _)|[(_ & _ & [slot Hslot] & _)|[(_ & _ & _ & Hfits' & _)|(_ & _ & _ & _ & H)]]]])]];
      [done | | congruence | done | | congruence | done].
    + rewrite Hsplit, forallb_app in Hsup. simpl in Hsup. rewrite Hc in Hsup.
      by rewrite andb_false_r in Hsup.
    + by apply CollideAt_not_distinct in Hslot.
Qed.

(** X2. An input is accepted exactly when it has a non-whitespace
    character, all of them digits or lower-case letters after lower-casing,
    not all of them 0, the sum of the heights is a multiple of their number,
    no two non-zero throws share a landing slot, and the engine accepts a
    call with as many arguments as there are heights (so that [Math.max]
    does not throw); the data returned is then determined by the heights. *)
Theorem parseSiteswap_accepts_iff (toLowerCase : jsstring -> jsstring)
    (fitsArguments : Z -> bool) (rawInput : jsstring) (d : SiteswapData) :
  parseSiteswap toLowerCase fitsArguments rawInput = Return d <->
  cleanInput toLowerCase rawInput <> [] /\
  forallb isLowerAlnum (cleanInput toLowerCase rawInput) = true /\
  allZero (List.map heightOfChar (cleanInput toLowerCase rawInput)) = false /\
  Z.rem (sumThrows (List.map heightOfChar (cleanInput toLowerCase rawInput)))
        (Z.of_nat (length (cleanInput toLowerCase rawInput))) = 0 /\
  LandingsDistinct (List.map heightOfChar (cleanInput toLowerCase rawInput)) /\
  fitsArguments (Z.of_nat (length (cleanInput toLowerCase rawInput))) = true /\
  d = {| pattern := List.map heightOfChar (cleanInput toLowerCase rawInput);
         period := Z.of_nat (length (cleanInput toLowerCase rawInput));
         balls := sumThrows (List.map heightOfChar (cleanInput toLowerCase rawInput))
                  / Z.of_nat (length (cleanInput toLowerCase rawInput));
         maxThrow := maxOfList (List.map heightOfChar (cleanInput toLowerCase rawInput)) |}.
Proof. apply accepts_iff. Qed.

Lemma parseSiteswap_accepts_iff_witness :
  cleanInput asciiToLowerCase (lit "5 3 1") <> [].
Proof.
  destruct (parseSiteswap_accepts_iff asciiToLowerCase typicalLimit (lit "5 3 1")
              {| pattern := [5; 3; 1]; period := 3; balls := 3; maxThrow := 5 |})
    as [Hto _].
  destruct (Hto eq_refl) as [Hne _]. exact Hne.
Defined.

(** X3. The empty-pattern error is thrown exactly when the lower-cased
    input consists of whitespace only (the empty input included). *)
Theorem empty_iff_only_whitespace (toLowerCase : jsstring -> jsstring)
    (fitsArguments : Z -> bool)
    (rawInput : jsstring) :
  parseSiteswap toLowerCase fitsArguments rawInput = Throw (SiteswapError MSG_EMPTY) <->
  forallb isWhitespace (toLowerCase rawInput) = true.
Proof.
  rewrite <- stripWhitespace_nil. fold (cleanInput toLowerCase rawInput).
  pose proof (parseSiteswap_cases toLowerCase fitsArguments rawInput) as Hcases. cbv zeta in Hcases.
  split.
  - intros Hthrow. rewrite Hthrow in Hcases.
    destruct Hcases
      as [[Hnil _]|[(pre & post & c & _ & _ & _ & H)|(_ & _ & [[_ H]|[(_ & _ & H)|[(_ & _ & _ & H)|[(_ & _ & _ & _ & H)|(_ & _ & _ & _ & H)]]]])]];
      [done | different_outcome..].
  - by apply parseSiteswap_empty.
Qed.

Lemma empty_iff_only_whitespace_witness :
  parseSiteswap asciiToLowerCase typicalLimit [32%N; 9%N; 10%N; 160%N] = Throw (SiteswapError MSG_EMPTY).
Proof.
  apply (empty_iff_only_whitespace asciiToLowerCase typicalLimit [32%N; 9%N; 10%N; 160%N]).
  reflexivity.
Defined.

(** X4. The first character of the cleaned input that is neither a digit
    nor a lower-case letter is the one the error names, whatever follows
    it. *)
Theorem unsupported_character_named (toLowerCase : jsstring -> jsstring)
    (fitsArguments : Z -> bool)
    (rawInput pre post : jsstring) (c : N) :
  cleanInput toLowerCase rawInput = pre ++ c :: post ->
  forallb isLowerAlnum pre = true ->
  isLowerAlnum c = false ->
  parseSiteswap toLowerCase fitsArguments rawInput = Throw (SiteswapError (MSG_UNSUPPORTED c)).
Proof.
  intros Hsplit Hpre Hc. apply parseSiteswap_read_Throw.
  rewrite Hsplit. by apply readThrows_unsupported.
Qed.

Lemma unsupported_character_named_witness :
  parseSiteswap asciiToLowerCase typicalLimit (lit "5-3!") = Throw (SiteswapError (MSG_UNSUPPORTED 45)).
Proof.
  apply (unsupported_character_named asciiToLowerCase typicalLimit (lit "5-3!") (lit "5") (lit "3!") 45);
    reflexivity.
Defined.

Lemma allZero_heights (cleaned : jsstring) :
  forallb isLowerAlnum cleaned = true ->
  allZero (List.map heightOfChar cleaned) = forallb (fun c => (c =? 48)%N) cleaned.
Proof.
  induction cleaned as [|c rest IH]; simpl; [done|].
  rewrite andb_true_iff. intros [Hc Hrest]. rewrite <- IH by done.
  unfold allZero at 2. f_equal.
  pose proof (heightOfChar_zero c Hc) as Hzero.
  destruct (Z.eqb_spec (heightOfChar c) 0) as [Heq|Hneq], (N.eqb_spec c 48) as [Hc48|Hc48];
    try done; tauto.
Qed.

Lemma zeros_supported (cleaned : jsstring) :
  forallb (fun c => (c =? 48)%N) cleaned = true -> forallb isLowerAlnum cleaned = true.
Proof.
  induction cleaned as [|c rest IH]; simpl; [done|].
  rewrite !andb_true_iff. intros [Hc Hrest]. split; [|by apply IH].
  apply N.eqb_eq in Hc as ->. reflexivity.
Qed.

(** X5. The all-zeros error is thrown exactly when the cleaned input is
    not empty and consists of the character 0 only. *)
Theorem all_zero_iff_only_zeros (toLowerCase : jsstring -> jsstring)
    (fitsArguments : Z -> bool)
    (rawInput : jsstring) :
  parseSiteswap toLowerCase fitsArguments rawInput = Throw (SiteswapError MSG_ALL_ZERO) <->
  cleanInput toLowerCase rawInput <> [] /\
  forallb (fun c => (c =? 48)%N) (cleanInput toLowerCase rawInput) = true.
Proof.
  pose proof (parseSiteswap_cases toLowerCase fitsArguments rawInput) as Hcases. cbv zeta in Hcases.
  split.
  - intros Hthrow. rewrite Hthrow in Hcases.
    destruct Hcases
      as [[_ H]|[(pre & post & c & _ & _ & _ & H)|(Hne & Hsup & [[Hz _]|[(_ & _ & H)|[(_ & _ & _ & H)|[(_ & _ & _ & _ & H)|(_ & _ & _ & _ & H)]]]])]];
      try different_outcome.
    split; [done|]. by rewrite <- allZero_heights.
  - intros [Hne Hzeros]. pose proof (zeros_supported _ Hzeros) as Hsup.
    rewrite <- allZero_heights in Hzeros by done.
    destruct Hcases
      as [[Hnil _]|[(pre & post & c & Hsplit & _ & Hc & _)|(_ & _ & [[_ H]|[(Hz & _)|[(Hz & _)|[(Hz & _)|(Hz & _)]]]])]];
      [done | | done | congruence..].
    rewrite Hsplit, forallb_app in Hsup. simpl in Hsup. rewrite Hc in Hsup.
    by rewrite andb_false_r in Hsup.
Qed.

Lemma all_zero_iff_only_zeros_witness :
  parseSiteswap asciiToLowerCase typicalLimit (lit "0 00") = Throw (SiteswapError MSG_ALL_ZERO).
Proof.
  apply (all_zero_iff_only_zeros asciiToLowerCase typicalLimit (lit "0 00")).
  split; [discriminate | reflexivity].
Defined.

Lemma fold_left_max_spec (rest : list Z) (value : Z) :
  fold_left Z.max rest value ∈ value :: rest /\
  Forall (fun v => v <= fold_left Z.max rest value) (value :: rest).
Proof.
  revert value. induction rest as [|x rest IH]; intros value; simpl.
  - split; [left | by repeat constructor].
  - destruct (IH (Z.max value x)) as [Hin Hall].
    apply Forall_cons in Hall as [Hmax Hall]. split.
    + apply elem_of_cons in Hin as [Heq|Hin].
      * rewrite Heq. destruct (Z.max_spec value x) as [[_ ->]|[_ ->]];
          [right; left | left].
      * right. by right.
    + repeat constructor; [lia | lia | done].
Qed.

Lemma sumThrows_le_max (l : list Z) (m : Z) :
  Forall (fun v => v <= m) l -> sumThrows l <= Z.of_nat (length l) * m.
Proof.
  induction 1 as [|x l Hx _ IH]; [done|].
  rewrite sumThrows_cons. simpl length. lia.
Qed.

(** X6. The data of an accepted input: the period is the number of
    non-whitespace characters, [maxThrow] is a height of the pattern and
    bounds all of them, and the ball count lies between one and
    [maxThrow], which is at most 35. *)
Theorem accepted_data_bounds (toLowerCase : jsstring -> jsstring)
    (fitsArguments : Z -> bool)
    (rawInput : jsstring) (d : SiteswapData) :
  parseSiteswap toLowerCase fitsArguments rawInput = Return d ->
  period d = Z.of_nat (length (cleanInput toLowerCase rawInput)) /\
  1 <= period d /\
  maxThrow d ∈ pattern d /\
  Forall (fun value => 0 <= value <= maxThrow d) (pattern d) /\
  1 <= balls d <= maxThrow d /\
  maxThrow d <= 35.
Proof.
  intros Hparse. apply parseSiteswap_Return in Hparse as [Hread Hacc].
  destruct Hacc as [Hne Hperiod Hheights _ Havg Hballs _ Hmax].
  destruct (readThrows_heights _ _ Hread) as [_ Hlen].
  destruct (pattern d) as [|value rest] eqn:Hpat; [done|].
  destruct (fold_left_max_spec rest value) as [Hin Hall].
  change (fold_left Z.max rest value) with (maxOfList (value :: rest)) in Hin, Hall.
  rewrite <- Hmax in Hin, Hall.
  assert (1 <= period d) as Hp by (rewrite Hperiod; simpl; lia).
  pose proof (sumThrows_le_max _ _ Hall) as Hsum.
  rewrite <- Havg, <- Hperiod in Hsum.
  split_and!; [by rewrite Hperiod, Hlen | done | done | | done | nia |].
  - rewrite Forall_forall in Hheights, Hall. apply Forall_forall.
    intros v Hv. specialize (Hheights v Hv). specialize (Hall v Hv). simpl in *. lia.
  - rewrite Forall_forall in Hheights. specialize (Hheights _ Hin). simpl in *. lia.
Qed.

Lemma accepted_data_bounds_witness :
  1 <= 3 <= 5 /\ 5 <= 35.
Proof.
  destruct (accepted_data_bounds asciiToLowerCase typicalLimit (lit "5 3 1")
              {| pattern := [5; 3; 1]; period := 3; balls := 3; maxThrow := 5 |})
    as (_ & _ & _ & _ & Hballs & Hmax); [reflexivity|].
  exact (conj Hballs Hmax).
Defined.

Lemma sumThrows_replicate (n : nat) (h : Z) :
  sumThrows (replicate n h) = Z.of_nat n * h.
Proof.
  induction n as [|n IH]; [done|].
  change (replicate (S n) h) with (h :: replicate n h).
  rewrite sumThrows_cons, IH. lia.
Qed.

Lemma maxOfList_replicate (n : nat) (h : Z) : maxOfList (replicate (S n) h) = h.
Proof.
  simpl. induction n as [|n IH]; simpl; [done|]. by rewrite Z.max_id.
Qed.

Lemma landings_distinct_replicate (n : nat) (h : Z) :
  0 < h -> LandingsDistinct (replicate n h).
Proof.
  intros Hh i j vi vj Hi Hj _ _. rewrite length_replicate.
  apply lookup_replicate in Hi as [-> Hi]. apply lookup_replicate in Hj as [-> Hj].
  rewrite !Z.rem_mod_nonneg by lia. intros Heq.
  pose proof (Z.div_mod (Z.of_nat i + h) (Z.of_nat n) ltac:(lia)) as Hdi.
  pose proof (Z.div_mod (Z.of_nat j + h) (Z.of_nat n) ltac:(lia)) as Hdj.
  rewrite Heq in Hdi.
  assert (Z.of_nat i - Z.of_nat j =
          Z.of_nat n * ((Z.of_nat i + h) / Z.of_nat n - (Z.of_nat j + h) / Z.of_nat n))
    as Hdiff by lia.
  assert ((Z.of_nat i + h) / Z.of_nat n - (Z.of_nat j + h) / Z.of_nat n = 0) by nia.
  lia.
Qed.

(** X7. A non-zero digit or letter repeated any number of times passes
    every check of the validator: when the engine accepts a call with that
    many arguments the data is returned, with the height of the character
    as ball count and maximum and the number of repetitions as period;
    otherwise the call of [Math.max] throws the engine's [RangeError]. *)
Theorem constant_pattern_accepted (toLowerCase : jsstring -> jsstring)
    (fitsArguments : Z -> bool)
    (rawInput : jsstring) (n : nat) (c : N) :
  cleanInput toLowerCase rawInput = replicate (S n) c ->
  isLowerAlnum c = true ->
  c <> 48%N ->
  parseSiteswap toLowerCase fitsArguments rawInput =
  if fitsArguments (Z.of_nat (S n)) then
    Return {| pattern := replicate (S n) (heightOfChar c);
              period := Z.of_nat (S n);
              balls := heightOfChar c;
              maxThrow := heightOfChar c |}
  else Throw RangeError.
Proof.
  intros Hclean Hc Hc48.
  pose proof (heightOfChar_range c Hc) as Hrange.
  pose proof (heightOfChar_zero c Hc) as Hzero.
  assert (0 < heightOfChar c) as Hpos by (destruct Hzero; lia).
  assert (forallb isLowerAlnum (replicate (S n) c) = true) as Hsup.
  { apply forallb_forall. intros x Hx%list_elem_of_In%elem_of_replicate.
    by destruct Hx as [-> _]. }
  pose proof (readThrows_supported _ [] Hsup) as Hread. rewrite app_nil_l in Hread.
  change (List.map heightOfChar (replicate (S n) c))
    with (heightOfChar <$> replicate (S n) c) in Hread.
  rewrite fmap_replicate, <- Hclean in Hread.
  rewrite (parseSiteswap_after_read toLowerCase fitsArguments rawInput _ Hread)
    by done.
  assert (allZero (replicate (S n) (heightOfChar c)) = false) as ->.
  { simpl. destruct (Z.eqb_spec (heightOfChar c) 0); [lia|done]. }
  rewrite length_replicate, sumThrows_replicate.
  unfold isIntegerQuotient. rewrite (Z.mul_comm (Z.of_nat (S n))).
  rewrite Z.rem_mul, Z.div_mul by lia. simpl negb. cbv iota.
  destruct (checkLandings_returns (replicate (S n) (heightOfChar c))) as [out Hout];
    [by apply landings_distinct_replicate|].
  rewrite length_replicate in Hout. rewrite Hout.
  unfold mathMax. rewrite length_replicate.
  unfold mbind, outcome_bind. cbv beta iota.
  destruct (heightOfChar c <? 1) eqn:Hlt; [lia|].
  destruct (fitsArguments (Z.of_nat (S n))); [|done].
  by rewrite maxOfList_replicate.
Qed.

(** On an engine that accepts at most two arguments, 531 passes every
    check and the call of [Math.max] throws. *)
Example range_error_past_limit :
  parseSiteswap asciiToLowerCase (fun n => n <=? 2) (lit "531") = Throw RangeError.
Proof. vm_compute. reflexivity. Qed.

Lemma constant_pattern_accepted_witness :
  parseSiteswap asciiToLowerCase typicalLimit (lit "777 7") =
  Return {| pattern := [7; 7; 7; 7]; period := 4; balls := 7; maxThrow := 7 |}.
Proof.
  apply (constant_pattern_accepted asciiToLowerCase typicalLimit (lit "777 7") 3 55);
    [reflexivity | reflexivity | discriminate].
Defined.

End ValidatorExtras.

(** * Further properties of the planner *)

Module PlannerExtras.
Import Simulation Notions MoreNotions PlannerFacts.

Section Loop.

Variable pattern : list Z.
Variable balls : Z.

(** An iteration throws exactly when its throw lands where an earlier
    throw lands. *)
Lemma planBeat_outcome (beat : Z) (st : LoopState) :
  0 <= beat -> stateBefore pattern balls beat = Return st ->
  ((exists st' : LoopState, planBeat pattern balls beat st = Return st') /\
   ~ (0 < heightAt pattern beat /\
      exists b : Z, 0 <= b < beat /\ 0 < heightAt pattern b /\
                    b + heightAt pattern b = beat + heightAt pattern beat)) \/
  (planBeat pattern balls beat st = Throw (Error MSG_CONFLICT) /\
   0 < heightAt pattern beat /\
   exists b : Z, 0 <= b < beat /\ 0 < heightAt pattern b /\
                 b + heightAt pattern b = beat + heightAt pattern beat).
Proof.
  intros Hbeat Hst. destruct (table_invariant pattern balls beat st Hbeat Hst) as [Htable _].
  pose proof (resolveBallId_catch balls beat st) as Hcatch.
  unfold planBeat.
  change (throwAt pattern (Z.rem beat (patternPeriod pattern)))
    with (heightAt pattern beat).
  destruct (resolveBallId balls beat st) as [[src id] st1]. simpl in Hcatch. cbv zeta.
  destruct (heightAt pattern beat >? 0) eqn:Hv.
  - destruct (catchAssignments st1 !! (beat + heightAt pattern beat)) as [x|] eqn:Hlook.
    + right. split_and!; [done | lia |].
      assert (is_Some (delete beat (catchAssignments st) !! (beat + heightAt pattern beat)))
        as Hsome by (rewrite <- Hcatch, Hlook; eauto).
      apply lookup_delete_is_Some in Hsome as [_ Hsome].
      apply Htable in Hsome as [_ Hb]. exact Hb.
    + left. split; [eauto|]. intros [_ Hb].
      assert (is_Some (catchAssignments st1 !! (beat + heightAt pattern beat))) as [x Hx];
        [|congruence].
      rewrite Hcatch. apply lookup_delete_is_Some. split; [lia|].
      apply Htable. split; [lia|done].
  - left. split; [eauto|]. lia.
Qed.

Lemma ConflictBefore_succ (total : Z) :
  ConflictBefore pattern (total + 1) <->
  ConflictBefore pattern total \/
  (0 < heightAt pattern total /\
   exists b : Z, 0 <= b < total /\ 0 < heightAt pattern b /\
                 b + heightAt pattern b = total + heightAt pattern total).
Proof.
  unfold ConflictBefore. split.
  - intros (b1 & b2 & Hb1 & Hb2 & Hv1 & Hv2 & Hland).
    destruct (decide (b2 = total)) as [->|Hne].
    + right. split; [done|]. exists b1. split_and!; [lia..|done|done].
    + left. exists b1, b2. split_and!; [lia..|done|done|done].
  - intros [(b1 & b2 & Hb1 & Hb2 & Hv1 & Hv2 & Hland)|(Hv & b & Hb & Hvb & Hland)].
    + exists b1, b2. split_and!; [lia..|done|done|done].
    + exists b, total. split_and!; [lia..|done|done|done].
Qed.

(** The loop gets through [total] beats exactly when no two throws made
    before [total] land at the same beat; otherwise it throws the conflict
    error. *)
Lemma stateBefore_outcome (total : Z) :
  0 <= total ->
  ((exists st : LoopState, stateBefore pattern balls total = Return st) /\
   ~ ConflictBefore pattern total) \/
  (stateBefore pattern balls total = Throw (Error MSG_CONFLICT) /\
   ConflictBefore pattern total).
Proof.
  intros Htotal. pattern total. apply natlike_ind; [| |done]; clear total Htotal.
  - left. split; [by exists initialState|].
    intros (b1 & b2 & Hb1 & Hb2 & _). lia.
  - intros total Htotal IH. unfold Z.succ.
    rewrite stateBefore_succ by done. rewrite ConflictBefore_succ.
    destruct IH as [[[st Hst] Hno]|[Hthrow Hconf]].
    + rewrite Hst. simpl.
      destruct (planBeat_outcome total st Htotal Hst) as [[Hret Hfree]|(Hthrow & Hv & Hb)].
      * left. split; [done|]. tauto.
      * right. split; [done|]. by right.
    + right. rewrite Hthrow. split; [done|]. by left.
Qed.

End Loop.

(** The outcome of the planner. *)
Lemma plan_outcome (pattern : list Z) (balls : Z) (loops : option Z) :
  ((exists plan : SimulationPlan, buildSimulationPlan pattern balls loops = Return plan) /\
   ~ ConflictBefore pattern (totalBeatsOf pattern (default 6 loops))) \/
  (buildSimulationPlan pattern balls loops = Throw (Error MSG_CONFLICT) /\
   ConflictBefore pattern (totalBeatsOf pattern (default 6 loops))).
Proof.
  destruct (stateBefore_outcome pattern balls (totalBeatsOf pattern (default 6 loops)))
    as [[[st Hst] Hno]|[Hthrow Hconf]]; [apply totalBeatsOf_nonneg | |].
  - left. split; [|done]. unfold buildSimulationPlan.
    unfold stateBefore in Hst. rewrite Hst. simpl. eauto.
  - right. split; [|done]. unfold buildSimulationPlan.
    unfold stateBefore in Hthrow. by rewrite Hthrow.
Qed.

(** X8. The planner throws exactly when two throws made within the
    simulated beats land at the same absolute beat; the only error it
    throws is the landing-conflict error, and otherwise it returns a plan. *)
Theorem plan_throws_iff_conflict (pattern : list Z) (balls : Z) (loops : option Z) :
  ((exists plan : SimulationPlan, buildSimulationPlan pattern balls loops = Return plan) /\
   ~ ConflictBefore pattern (totalBeatsOf pattern (default 6 loops))) \/
  (buildSimulationPlan pattern balls loops = Throw (Error MSG_CONFLICT) /\
   ConflictBefore pattern (totalBeatsOf pattern (default 6 loops))).
Proof. apply plan_outcome. Qed.

Example plan_conflict_240 :
  buildSimulationPlan [2; 4; 0] 2 (Some 2) = Throw (Error MSG_CONFLICT).
Proof. vm_compute. reflexivity. Qed.

Lemma ConflictBefore_mono (pattern : list Z) (t1 t2 : Z) :
  t1 <= t2 -> ConflictBefore pattern t1 -> ConflictBefore pattern t2.
Proof.
  intros Hle (b1 & b2 & Hb1 & Hb2 & Hv1 & Hv2 & Hland).
  exists b1, b2. split_and!; first [done | lia].
Qed.

(** The height at a beat that is [i] modulo the period. *)
Lemma heightAt_shift (pattern : list Z) (i : nat) (vi k : Z) :
  pattern !! i = Some vi -> 0 <= k ->
  heightAt pattern (Z.of_nat i + k * Z.of_nat (length pattern)) = vi.
Proof.
  intros Hi Hk. pose proof (lookup_lt_Some _ _ _ Hi) as Hlt.
  assert (pattern <> []) as Hne by (intros ->; done).
  destruct (heightAt_lookup pattern Hne (Z.of_nat i + k * Z.of_nat (length pattern)))
    as [_ Hlook]; [nia|].
  rewrite Z.mod_add, Z.mod_small, Nat2Z.id in Hlook by lia. congruence.
Qed.

(** X9. For a non-empty pattern of non-negative heights, the landing
    slots of the non-zero throws are pairwise distinct modulo the period
    exactly when the planner returns a plan for every number of
    repetitions. *)
Theorem distinct_slots_iff_always_planned (pattern : list Z) (balls : Z) :
  pattern <> [] ->
  Forall (fun value => 0 <= value) pattern ->
  LandingsDistinct pattern <->
  forall loops : option Z,
    exists plan : SimulationPlan, buildSimulationPlan pattern balls loops = Return plan.
Proof.
  intros Hne Hnonneg. split.
  - intros Hdist loops. by apply buildSimulationPlan_returns.
  - intros Hplans i j vi vj Hi Hj Hvi Hvj Heq.
    destruct (decide (i = j)) as [|Hij]; [done|]. exfalso.
    pose proof (lookup_lt_Some _ _ _ Hi) as Hilt.
    pose proof (lookup_lt_Some _ _ _ Hj) as Hjlt.
    rewrite Forall_forall in Hnonneg.
    pose proof (Hnonneg vi (list_elem_of_lookup_2 _ _ _ Hi)) as Hvi0.
    pose proof (Hnonneg vj (list_elem_of_lookup_2 _ _ _ Hj)) as Hvj0.
    simpl in Hvi0, Hvj0.
    set (p := Z.of_nat (length pattern)) in *.
    rewrite !Z.rem_mod_nonneg in Heq by lia.
    pose proof (Z.div_mod (Z.of_nat i + vi) p ltac:(lia)) as Hdi.
    pose proof (Z.div_mod (Z.of_nat j + vj) p ltac:(lia)) as Hdj.
    rewrite Heq in Hdi.
    set (qi := (Z.of_nat i + vi) / p) in *. set (qj := (Z.of_nat j + vj) / p) in *.
    assert (0 <= qi) by (apply Z.div_pos; lia).
    assert (0 <= qj) by (apply Z.div_pos; lia).
    (* the throw at index i in repetition qj and the one at index j in
       repetition qi land at the same beat *)
    set (b1 := Z.of_nat i + qj * p). set (b2 := Z.of_nat j + qi * p).
    assert (heightAt pattern b1 = vi) as H1 by (by apply heightAt_shift).
    assert (heightAt pattern b2 = vj) as H2 by (by apply heightAt_shift).
    assert (b1 + vi = b2 + vj) as Hland by (unfold b1, b2; lia).
    assert (b1 <> b2) as Hb.
    { unfold b1, b2. intros Hb.
      assert (Z.of_nat i - Z.of_nat j = p * (qi - qj)) as Hdiff by lia.
      assert (qi - qj = 0) by nia. lia. }
    assert (0 <= b1) by (unfold b1; nia). assert (0 <= b2) by (unfold b2; nia).
    assert (ConflictBefore pattern (Z.max b1 b2 + 1)) as Hconf.
    { destruct (Z.lt_ge_cases b1 b2).
      - exists b1, b2. rewrite H1, H2. split_and!; lia.
      - exists b2, b1. rewrite H1, H2. split_and!; lia. }
    destruct (plan_outcome pattern balls (Some (Z.max b1 b2 + 1)))
      as [[_ Hno]|[Hthrow _]].
    + apply Hno. eapply ConflictBefore_mono; [|exact Hconf].
      simpl. unfold totalBeatsOf, patternPeriod. fold p. nia.
    + destruct (Hplans (Some (Z.max b1 b2 + 1))) as [plan Hplan]. congruence.
Qed.

Lemma distinct_slots_iff_always_planned_witness :
  exists plan : SimulationPlan, buildSimulationPlan [4; 4; 1] 3 (Some 2) = Return plan.
Proof.
  destruct (distinct_slots_iff_always_planned [4; 4; 1] 3) as [Hto _].
  - discriminate.
  - repeat constructor; simpl; lia.
  - apply Hto. intros i j vi vj Hi Hj _ _.
    destruct i as [|[|[|i]]]; destruct j as [|[|[|j]]]; simpl in Hi, Hj;
      try done; simplify_eq; done.
Defined.

Section Identity.

Variable pattern : list Z.
Variable balls : Z.

(** Every flight still in the air has its entry in the pending-landing
    table, and a flight that starts where another one ends carries the same
    ball. *)
Lemma continuity_invariant (beat : Z) (st : LoopState) :
  0 <= beat -> stateBefore pattern balls beat = Return st ->
  Forall (fun f => startBeat f < beat) (flightsSoFar st) /\
  (forall f : Flight,
      f ∈ flightsSoFar st -> beat <= endBeat f ->
      catchAssignments st !! endBeat f = Some (ballId f)) /\
  (forall f g : Flight,
      f ∈ flightsSoFar st -> g ∈ flightsSoFar st ->
      startBeat g = endBeat f -> ballId g = ballId f).
Proof.
  revert beat st. apply stateBefore_ind.
  - split_and!; [constructor | intros f Hf; by apply elem_of_nil in Hf
                 | intros f g Hf; by apply elem_of_nil in Hf].
  - intros beat st st' Hbeat Hst (IHstart & IHtable & IHcont) Hplan.
    destruct (flights_invariant pattern balls beat st Hbeat Hst) as [_ Hok].
    rewrite Forall_forall in Hok, IHstart.
    apply planBeat_Return in Hplan. simpl in Hplan.
    rewrite resolveBallId_catch, resolveBallId_flights in Hplan.
    destruct Hplan as [[Hv ->]|(Hv & Hfree & ->)]; simpl.
    + rewrite resolveBallId_catch, resolveBallId_flights. split_and!.
      * apply Forall_forall. intros f Hf. specialize (IHstart f Hf). simpl in *. lia.
      * intros f Hf Hend. rewrite lookup_delete_ne by lia. apply IHtable; [done|lia].
      * done.
    + set (new := {| flightId := _ |}) in *.
      assert (forall f : Flight, f ∈ flightsSoFar st -> endBeat f <> endBeat new) as Hother.
      { intros f Hf Heq. simpl in Heq.
        destruct (decide (beat <= endBeat f)) as [Hle|Hlt].
        - pose proof (IHtable f Hf Hle) as Hlook.
          rewrite <- Heq, lookup_delete_ne in Hfree by lia. congruence.
        - lia. }
      split_and!.
      * apply Forall_app. split.
        -- apply Forall_forall. intros f Hf. specialize (IHstart f Hf). simpl in *. lia.
        -- repeat constructor. simpl. lia.
      * intros f Hf Hend. apply elem_of_app in Hf as [Hf|Hf].
        -- rewrite lookup_insert_ne by (apply not_eq_sym, (Hother f Hf)).
           rewrite lookup_delete_ne by lia. apply IHtable; [done|lia].
        -- apply list_elem_of_singleton in Hf as ->. simpl. by rewrite lookup_insert_eq.
      * intros f g Hf Hg Hstart.
        apply elem_of_app in Hf as [Hf|Hf]; apply elem_of_app in Hg as [Hg|Hg].
        -- by apply IHcont.
        -- apply list_elem_of_singleton in Hg as ->. simpl in Hstart |- *.
           pose proof (IHtable f Hf ltac:(lia)) as Hlook. rewrite <- Hstart in Hlook.
           unfold resolveBallId. by rewrite Hlook.
        -- apply list_elem_of_singleton in Hf as ->. simpl in Hstart.
           specialize (IHstart g Hg). simpl in IHstart. lia.
        -- apply list_elem_of_singleton in Hf as ->.
           apply list_elem_of_singleton in Hg as ->. simpl in Hstart. lia.
Qed.

End Identity.

(** X10. In a returned plan, a flight that starts at the beat where
    another flight ends carries the same ball: the ball caught at a beat is
    the ball thrown at that beat. *)
Theorem caught_ball_is_rethrown (pattern : list Z) (balls : Z) (loops : option Z)
    (plan : SimulationPlan) (f g : Flight) :
  buildSimulationPlan pattern balls loops = Return plan ->
  f ∈ flights plan -> g ∈ flights plan ->
  startBeat g = endBeat f ->
  ballId g = ballId f.
Proof.
  intros Hplan Hf Hg Hstart.
  apply buildSimulationPlan_Return in Hplan as (st & Hst & ->). simpl in Hf, Hg.
  destruct (continuity_invariant pattern balls _ st (totalBeatsOf_nonneg _ _) Hst)
    as (_ & _ & Hcont).
  by apply (Hcont f g).
Qed.

Example plan_pass : buildSimulationPlan [1] 1 (Some 2) = Return passPlan.
Proof. vm_compute. reflexivity. Qed.

Lemma caught_ball_is_rethrown_witness : ballId passFlight1 = ballId passFlight0.
Proof.
  apply (caught_ball_is_rethrown [1] 1 (Some 2) passPlan passFlight0 passFlight1);
    [reflexivity | repeat constructor | repeat constructor | reflexivity].
Defined.

Section Landings.

Variable pattern : list Z.
Variable balls : Z.

Lemma end_beats_invariant (beat : Z) (st : LoopState) :
  0 <= beat -> stateBefore pattern balls beat = Return st ->
  NoDup (List.map endBeat (flightsSoFar st)).
Proof.
  revert beat st. apply stateBefore_ind.
  - constructor.
  - intros beat st st' Hbeat Hst IH Hplan.
    destruct (continuity_invariant pattern balls beat st Hbeat Hst) as (Hstart & Htable & _).
    destruct (flights_invariant pattern balls beat st Hbeat Hst) as [_ Hok].
    rewrite Forall_forall in Hok, Hstart.
    apply planBeat_Return in Hplan. simpl in Hplan.
    rewrite resolveBallId_catch, resolveBallId_flights in Hplan.
    destruct Hplan as [[Hv ->]|(Hv & Hfree & ->)]; simpl.
    + by rewrite resolveBallId_flights.
    + rewrite List.map_app. apply NoDup_app. split_and!; [done| |repeat constructor].
      * intros e He Hnew. simpl in Hnew. apply list_elem_of_singleton in Hnew as ->.
        change (List.map endBeat (flightsSoFar st)) with (endBeat <$> flightsSoFar st) in He.
        apply list_elem_of_fmap in He as (f & Heq & Hf).
        destruct (decide (beat <= endBeat f)) as [Hle|Hlt].
        -- pose proof (Htable f Hf Hle) as Hlook.
           rewrite Heq, lookup_delete_ne in Hfree by lia. congruence.
        -- destruct (Hok f Hf) as [_ _ Hpos Hend _ _]. specialize (Hstart f Hf).
           simpl in Hstart. lia.
      * apply not_elem_of_nil.
Qed.

(** The flights emitted by an earlier beat are kept, in order, by the
    later beats. *)
Lemma flights_prefix (t1 t2 : Z) (st2 : LoopState) :
  0 <= t1 <= t2 ->
  stateBefore pattern balls t2 = Return st2 ->
  exists st1 : LoopState,
    stateBefore pattern balls t1 = Return st1 /\
    flightsSoFar st1 `prefix_of` flightsSoFar st2.
Proof.
  intros [Ht1 Hle]. revert st2.
  pattern t2. apply (Zlt_lower_bound_ind _ t1); [|done].
  clear t2 Hle. intros t2 IH Hle st2 Hst2.
  destruct (decide (t2 = t1)) as [->|Hne]; [by exists st2|].
  replace t2 with ((t2 - 1) + 1) in Hst2 by lia.
  rewrite stateBefore_succ in Hst2 by lia.
  apply bind_Return in Hst2 as (st & Hst & Hplan).
  destruct (IH (t2 - 1) ltac:(lia) st Hst) as (st1 & Hst1 & Hpre).
  exists st1. split; [done|]. etrans; [exact Hpre|].
  apply planBeat_Return in Hplan. simpl in Hplan.
  rewrite resolveBallId_flights in Hplan.
  destruct Hplan as [[_ ->]|(_ & _ & ->)]; simpl.
  - by rewrite resolveBallId_flights.
  - by apply prefix_app_r.
Qed.

End Landings.

(** X11. In a returned plan no two flights end at the same beat, every
    flight starts within the simulated beats and has a height of at least
    one, so it ends after it starts. *)
Theorem flights_land_apart (pattern : list Z) (balls : Z) (loops : option Z)
    (plan : SimulationPlan) :
  buildSimulationPlan pattern balls loops = Return plan ->
  NoDup (List.map endBeat (flights plan)) /\
  Forall (fun f => 0 <= startBeat f < beats plan /\ 1 <= throwValue f /\
                   startBeat f < endBeat f)
    (flights plan).
Proof.
  intros Hplan.
  apply buildSimulationPlan_Return in Hplan as (st & Hst & ->). simpl.
  pose proof (totalBeatsOf_nonneg pattern (default 6 loops)) as Hnn.
  split; [by eapply end_beats_invariant|].
  destruct (flights_invariant pattern balls _ st Hnn Hst) as [_ Hok].
  destruct (continuity_invariant pattern balls _ st Hnn Hst) as (Hstart & _ & _).
  rewrite Forall_forall in Hok, Hstart. apply Forall_forall. intros f Hf.
  destruct (Hok f Hf) as [Hs _ Hpos Hend _ _]. specialize (Hstart f Hf).
  simpl in Hstart. lia.
Qed.

Lemma flights_land_apart_witness : NoDup (List.map endBeat (flights passPlan)).
Proof.
  destruct (flights_land_apart [1] 1 (Some 2) passPlan) as [Hnodup _];
    [reflexivity | exact Hnodup].
Defined.

(** X12. Planning more beats extends the schedule: when the planner
    returns for a repetition count, it returns for every count that gives
    no more beats, and the flights of the shorter plan are the first
    flights of the longer one. *)
Theorem shorter_plan_is_prefix (pattern : list Z) (balls : Z) (loops1 loops2 : option Z)
    (plan2 : SimulationPlan) :
  buildSimulationPlan pattern balls loops2 = Return plan2 ->
  totalBeatsOf pattern (default 6 loops1) <= totalBeatsOf pattern (default 6 loops2) ->
  exists plan1 : SimulationPlan,
    buildSimulationPlan pattern balls loops1 = Return plan1 /\
    flights plan1 `prefix_of` flights plan2.
Proof.
  intros Hplan2 Hle.
  apply buildSimulationPlan_Return in Hplan2 as (st2 & Hst2 & ->). simpl.
  destruct (flights_prefix pattern balls (totalBeatsOf pattern (default 6 loops1))
              (totalBeatsOf pattern (default 6 loops2)) st2)
    as (st1 & Hst1 & Hpre); [split; [apply totalBeatsOf_nonneg|done] | done |].
  exists {| flights := flightsSoFar st1; beats := totalBeatsOf pattern (default 6 loops1) |}.
  split; [|done]. unfold buildSimulationPlan.
  unfold stateBefore in Hst1. by rewrite Hst1.
Qed.

Lemma shorter_plan_is_prefix_witness :
  exists plan1 : SimulationPlan,
    buildSimulationPlan [1] 1 (Some 1) = Return plan1 /\
    flights plan1 `prefix_of` flights passPlan.
Proof.
  apply (shorter_plan_is_prefix [1] 1 (Some 1) (Some 2) passPlan); [reflexivity | done].
Defined.

(** X13. The empty pattern gives the empty plan of zero beats, whatever
    the ball count and the repetitions. *)
Theorem empty_pattern_empty_plan (balls : Z) (loops : option Z) :
  buildSimulationPlan [] balls loops = Return {| flights := []; beats := 0 |}.
Proof.
  unfold buildSimulationPlan, totalBeatsOf, patternPeriod. simpl.
  rewrite Z.mul_0_r. reflexivity.
Qed.

Section Counting.

Variable pattern : list Z.

(** The heights over one repetition are the pattern. *)
Lemma heights_of_repetition (k : Z) :
  0 <= k ->
  heightAt pattern <$> seqZ (k * Z.of_nat (length pattern)) (Z.of_nat (length pattern)) =
  pattern.
Proof.
  intros Hk. apply list_eq. intros i. rewrite list_lookup_fmap.
  destruct (pattern !! i) as [vi|] eqn:Hi.
  - pose proof (lookup_lt_Some _ _ _ Hi) as Hlt.
    rewrite lookup_seqZ_lt by lia. simpl. f_equal.
    rewrite Z.add_comm. by apply heightAt_shift.
  - apply lookup_ge_None in Hi. rewrite lookup_seqZ_ge by lia. done.
Qed.

Lemma filter_fmap_length {A B : Type} (f : B -> bool) (g : A -> B) (l : list A) :
  length (List.filter (fun x => f (g x)) l) = length (List.filter f (g <$> l)).
Proof.
  induction l as [|x l IH]; simpl; [done|].
  destruct (f (g x)); simpl; by rewrite IH.
Qed.

Lemma throwBeats_repetitions (k : Z) :
  0 <= k ->
  Z.of_nat (length (throwBeats pattern (k * Z.of_nat (length pattern)))) =
  k * throwsPerPeriod pattern.
Proof.
  intros Hk. pattern k. apply natlike_ind; [| |done]; clear k Hk.
  - done.
  - intros k Hk IH. unfold throwBeats in *.
    replace (Z.succ k * Z.of_nat (length pattern))
      with (k * Z.of_nat (length pattern) + Z.of_nat (length pattern)) by lia.
    rewrite seqZ_app by lia. rewrite List.filter_app, length_app, Nat2Z.inj_add, IH.
    rewrite Z.add_0_l.
    rewrite (filter_fmap_length (fun value => value >? 0) (heightAt pattern)).
    rewrite heights_of_repetition by done. unfold throwsPerPeriod. lia.
Qed.

End Counting.

(** X14. A returned plan has as many flights as there are positive
    heights in the pattern, times the number of repetitions simulated (at
    least one). *)
Theorem flight_count (pattern : list Z) (balls : Z) (loops : option Z)
    (plan : SimulationPlan) :
  buildSimulationPlan pattern balls loops = Return plan ->
  Z.of_nat (length (flights plan)) = Z.max (default 6 loops) 1 * throwsPerPeriod pattern.
Proof.
  intros Hplan.
  apply buildSimulationPlan_Return in Hplan as (st & Hst & ->). simpl.
  destruct (flights_invariant pattern balls _ st (totalBeatsOf_nonneg _ _) Hst)
    as [Hstarts _].
  rewrite <- (length_map startBeat), Hstarts.
  replace (totalBeatsOf pattern (default 6 loops))
    with (Z.max (default 6 loops) 1 * Z.of_nat (length pattern))
    by (unfold totalBeatsOf, patternPeriod; nia).
  apply throwBeats_repetitions. lia.
Qed.

Lemma flight_count_witness :
  Z.of_nat (length (flights passPlan)) = Z.max 2 1 * throwsPerPeriod [1].
Proof.
  apply (flight_count [1] 1 (Some 2) passPlan). reflexivity.
Defined.

Section Origin.

Variable pattern : list Z.
Variable balls : Z.

(** Every entry of the pending-landing table was put there by a flight. *)
Lemma table_origin (beat : Z) (st : LoopState) :
  0 <= beat -> stateBefore pattern balls beat = Return st ->
  forall (k : Z) (id : number),
    catchAssignments st !! k = Some id ->
    exists g : Flight, g ∈ flightsSoFar st /\ endBeat g = k /\ ballId g = id.
Proof.
  revert beat st.
  apply (stateBefore_ind pattern balls
           (fun _ st =>
              forall (k : Z) (id : number),
                catchAssignments st !! k = Some id ->
                exists g : Flight, g ∈ flightsSoFar st /\ endBeat g = k /\ ballId g = id)).
  - intros k id Hk. simpl in Hk. by rewrite lookup_empty in Hk.
  - intros beat st st' Hbeat Hst IH Hplan.
    apply planBeat_Return in Hplan. simpl in Hplan.
    rewrite resolveBallId_catch, resolveBallId_flights in Hplan.
    destruct Hplan as [[Hv ->]|(Hv & Hfree & ->)]; simpl; intros k id Hk.
    + rewrite resolveBallId_catch in Hk. rewrite resolveBallId_flights.
      apply lookup_delete_Some in Hk as [_ Hk]. by apply IH.
    + apply lookup_insert_Some in Hk as [[<- <-]|[_ Hk]].
      * eexists. split; [apply elem_of_app; right; apply list_elem_of_here|done].
      * apply lookup_delete_Some in Hk as [_ Hk].
        destruct (IH k id Hk) as (g & Hg & Hend & Hid).
        exists g. split; [apply elem_of_app; by left|done].
Qed.

End Origin.

(** X15. The ball of every flight of a returned plan, by the branch read
    off the pattern: at a beat where an earlier throw lands, it is the ball
    of a flight of the plan that ends there; otherwise, while fewer than
    ballCount beats before it were without a landing, it is the number of
    those beats (identifiers are introduced in the order 0, 1, 2, ...);
    otherwise it is the start beat modulo ballCount. *)
Theorem flight_ball_by_branch (pattern : list Z) (balls : Z) (loops : option Z)
    (plan : SimulationPlan) (f : Flight) :
  buildSimulationPlan pattern balls loops = Return plan ->
  f ∈ flights plan ->
  match expectedSource pattern balls (startBeat f) with
  | PendingLanding =>
      exists g : Flight,
        g ∈ flights plan /\ endBeat g = startBeat f /\ ballId f = ballId g
  | Introduced => ballId f = Int (freeBeatsBefore pattern (startBeat f))
  | Fallback => ballId f = jsRem (startBeat f) balls
  end.
Proof.
  intros Hplan Hf.
  apply buildSimulationPlan_Return in Hplan as (st & Hst & ->). simpl in *.
  pose proof (totalBeatsOf_nonneg pattern (default 6 loops)) as Hnn.
  destruct (flights_invariant pattern balls _ st Hnn Hst) as [_ Hok].
  rewrite Forall_forall in Hok. destruct (Hok f Hf) as [Hstart _ _ _ _ _].
  destruct (continuity_invariant pattern balls _ st Hnn Hst) as (Hlt & _ & _).
  rewrite Forall_forall in Hlt. specialize (Hlt f Hf). simpl in Hlt.
  pose proof (flight_identity pattern balls _ st Hnn Hst) as Hid.
  rewrite Forall_forall in Hid. destruct (Hid f Hf) as (st0 & Hst0 & Hball).
  rewrite <- (resolveBallId_source pattern balls _ st0 Hstart Hst0).
  destruct (table_invariant pattern balls _ st0 Hstart Hst0) as [_ Hnext].
  pose proof (freeBeatsBefore_nonneg pattern (startBeat f)) as Hfree.
  rewrite Hball. unfold resolveBallId.
  destruct (catchAssignments st0 !! startBeat f) as [id|] eqn:Hlook; simpl.
  - destruct (table_origin pattern balls _ st0 Hstart Hst0 _ _ Hlook) as (g & Hg & Hend & Hgid).
    exists g. split_and!; [|done..].
    destruct (flights_prefix pattern balls (startBeat f)
                (totalBeatsOf pattern (default 6 loops)) st ltac:(lia) Hst)
      as (st0' & Hst0' & Hpre).
    assert (st0' = st0) as -> by congruence.
    by eapply elem_of_prefix.
  - destruct (nextBallId st0 <? balls) eqn:Hcmp; simpl; [|done].
    f_equal. lia.
Qed.

Lemma flight_ball_by_branch_witness :
  exists g : Flight,
    g ∈ flights passPlan /\ endBeat g = startBeat passFlight1 /\
    ballId passFlight1 = ballId g.
Proof.
  apply (flight_ball_by_branch [1] 1 (Some 2) passPlan passFlight1);
    [reflexivity | repeat constructor].
Defined.

(** ** Sums and counts over lists of beats *)

Lemma sumList_app (l k : list Z) : sumList (l ++ k) = sumList l + sumList k.
Proof. induction l as [|x l IH]; simpl; lia. Qed.

Lemma sumList_Permutation (l k : list Z) : l ≡ₚ k -> sumList l = sumList k.
Proof. induction 1; simpl; lia. Qed.

Lemma sumList_sumThrows (l : list Z) : Siteswap.sumThrows l = sumList l.
Proof.
  induction l as [|x l IH]; [done|].
  rewrite SiteswapFacts.sumThrows_cons, IH. done.
Qed.

Lemma sumList_filter_split (f : Z -> bool) (l : list Z) :
  sumList l = sumList (List.filter f l) + sumList (List.filter (fun x => negb (f x)) l).
Proof. induction l as [|x l IH]; simpl; [done|]. destruct (f x); simpl; lia. Qed.

Lemma length_filter_split (f : Z -> bool) (l : list Z) :
  length l =
  (length (List.filter f l) + length (List.filter (fun x => negb (f x)) l))%nat.
Proof. induction l as [|x l IH]; simpl; [done|]. destruct (f x); simpl; lia. Qed.

Lemma sumList_lower (c : Z) (l : list Z) :
  Forall (fun x => c <= x) l -> c * Z.of_nat (length l) <= sumList l.
Proof. induction 1 as [|x l Hx _ IH]; simpl; lia. Qed.

Lemma sumList_upper (c : Z) (l : list Z) :
  Forall (fun x => x <= c) l -> sumList l <= c * Z.of_nat (length l).
Proof. induction 1 as [|x l Hx _ IH]; simpl; lia. Qed.

Lemma sumList_fmap_add (h : Z -> Z) (l : list Z) :
  sumList (List.map (fun b => b + h b) l) = sumList l + sumList (List.map h l).
Proof. induction l as [|x l IH]; simpl; [done|]. rewrite IH. lia. Qed.

Lemma filter_elem (f : Z -> bool) (l : list Z) (x : Z) :
  x ∈ List.filter f l <-> x ∈ l /\ f x = true.
Proof. by rewrite !list_elem_of_In, filter_In. Qed.

Lemma NoDup_bool_filter (f : Z -> bool) (l : list Z) :
  NoDup l -> NoDup (List.filter f l).
Proof.
  induction 1 as [|x l Hx _ IH]; simpl; [constructor|].
  destruct (f x); [|done]. constructor; [|done].
  rewrite filter_elem. tauto.
Qed.

Section ZeroFree.

Variable pattern : list Z.
Hypothesis pattern_nonempty : pattern <> [].
Hypothesis heights_positive : Forall (fun value => 0 < value) pattern.
Hypothesis landings_distinct : LandingsDistinct pattern.

Lemma heightAt_positive (b : Z) : 0 <= b -> 0 < heightAt pattern b.
Proof.
  intros Hb. destruct (heightAt_lookup pattern pattern_nonempty b Hb) as [_ Hlook].
  apply list_elem_of_lookup_2 in Hlook. rewrite Forall_forall in heights_positive.
  by apply heights_positive.
Qed.

Lemma landingOf_inj (b1 b2 : Z) :
  0 <= b1 -> 0 <= b2 -> landingOf pattern b1 = landingOf pattern b2 -> b1 = b2.
Proof.
  intros Hb1 Hb2 Heq.
  apply (landing_beat_inj pattern pattern_nonempty landings_distinct);
    [done | done | by apply heightAt_positive | by apply heightAt_positive | done].
Qed.

Lemma landedOn_landingOf (b : Z) :
  landedOn pattern b = true <-> exists b' : Z, 0 <= b' < b /\ landingOf pattern b' = b.
Proof.
  rewrite landedOn_true. unfold landingOf. split.
  - intros (b' & Hb' & _ & Hland). eauto.
  - intros (b' & Hb' & Hland). exists b'. split_and!; [lia..| |done].
    apply heightAt_positive. lia.
Qed.

(** Among the throws made before [total], those that land at [total] or
    later are as many as the beats before [total] without a landing, and
    their landing beats add up to those beats plus all the heights. *)
Lemma airborne_count (total : Z) :
  0 <= total ->
  Z.of_nat (length (List.filter (fun x => negb (x <? total))
                      (List.map (landingOf pattern) (seqZ 0 total)))) =
    freeBeatsBefore pattern total /\
  sumList (List.filter (fun x => negb (x <? total))
             (List.map (landingOf pattern) (seqZ 0 total))) =
    sumList (List.filter (fun b => negb (landedOn pattern b)) (seqZ 0 total)) +
    sumList (List.map (heightAt pattern) (seqZ 0 total)).
Proof.
  intros Htotal.
  set (T := seqZ 0 total).
  set (LT := List.map (landingOf pattern) T).
  assert (List.filter (fun x => x <? total) LT ≡ₚ List.filter (landedOn pattern) T) as Hperm.
  { apply NoDup_Permutation.
    - apply NoDup_bool_filter. unfold LT.
      change (List.map (landingOf pattern) T) with (landingOf pattern <$> T).
      apply NoDup_fmap_2_strong; [|apply NoDup_seqZ].
      intros x y Hx%elem_of_seqZ Hy%elem_of_seqZ. apply landingOf_inj; lia.
    - apply NoDup_bool_filter, NoDup_seqZ.
    - intros x. rewrite !filter_elem. unfold LT, T.
      change (List.map (landingOf pattern) (seqZ 0 total))
        with (landingOf pattern <$> seqZ 0 total).
      rewrite list_elem_of_fmap, elem_of_seqZ, landedOn_landingOf. split.
      + intros [(b & -> & Hb%elem_of_seqZ) Hlt]. apply Z.ltb_lt in Hlt.
        pose proof (heightAt_positive b ltac:(lia)) as Hpos. unfold landingOf in *.
        split; [lia|]. exists b. lia.
      + intros [Hx (b & Hb & Hland)]. split; [|apply Z.ltb_lt; lia].
        exists b. split; [done|]. apply elem_of_seqZ. lia. }
  pose proof (length_filter_split (fun x => x <? total) LT) as HlenL.
  pose proof (length_filter_split (landedOn pattern) T) as HlenT.
  pose proof (sumList_filter_split (fun x => x <? total) LT) as HsumL.
  pose proof (sumList_filter_split (landedOn pattern) T) as HsumT.
  pose proof (Permutation_length Hperm) as Hplen.
  pose proof (sumList_Permutation _ _ Hperm) as Hpsum.
  assert (length LT = length T) as Hlen by (unfold LT; apply length_map).
  assert (sumList LT = sumList T + sumList (List.map (heightAt pattern) T)) as Hsum.
  { unfold LT, landingOf. apply sumList_fmap_add. }
  cbv beta in HlenL, HsumL. unfold freeBeatsBefore. fold T. split; lia.
Qed.

Lemma free_beats_sum_bound (t0 total : Z) :
  0 <= t0 <= total ->
  sumList (List.filter (fun b => negb (landedOn pattern b)) (seqZ 0 total)) <=
  t0 * freeBeatsBefore pattern t0 +
  total * (freeBeatsBefore pattern total - freeBeatsBefore pattern t0).
Proof.
  intros [Ht0 Hle]. unfold freeBeatsBefore.
  replace total with (t0 + (total - t0)) at 1 3 by lia.
  rewrite seqZ_app by lia. rewrite List.filter_app, sumList_app, length_app.
  rewrite Z.add_0_l.
  pose proof (sumList_upper t0
                (List.filter (fun b => negb (landedOn pattern b)) (seqZ 0 t0))) as H1.
  pose proof (sumList_upper total
                (List.filter (fun b => negb (landedOn pattern b)) (seqZ t0 (total - t0))))
    as H2.
  assert (Forall (fun x => x <= t0)
            (List.filter (fun b => negb (landedOn pattern b)) (seqZ 0 t0))) as Hall1.
  { apply Forall_forall. intros x [Hx%elem_of_seqZ _]%filter_elem. lia. }
  assert (Forall (fun x => x <= total)
            (List.filter (fun b => negb (landedOn pattern b)) (seqZ t0 (total - t0))))
    as Hall2.
  { apply Forall_forall. intros x [Hx%elem_of_seqZ _]%filter_elem. lia. }
  specialize (H1 Hall1). specialize (H2 Hall2). lia.
Qed.

Lemma heights_sum (k : Z) :
  0 <= k ->
  sumList (List.map (heightAt pattern) (seqZ 0 (k * Z.of_nat (length pattern)))) =
  k * sumList pattern.
Proof.
  intros Hk. pattern k. apply natlike_ind; [| |done]; clear k Hk.
  - done.
  - intros k Hk IH.
    replace (Z.succ k * Z.of_nat (length pattern))
      with (k * Z.of_nat (length pattern) + Z.of_nat (length pattern)) by lia.
    rewrite seqZ_app by lia. rewrite List.map_app, sumList_app, IH, Z.add_0_l.
    change (List.map (heightAt pattern)
              (seqZ (k * Z.of_nat (length pattern)) (Z.of_nat (length pattern))))
      with (heightAt pattern <$>
              seqZ (k * Z.of_nat (length pattern)) (Z.of_nat (length pattern))).
    rewrite heights_of_repetition by done. lia.
Qed.

(** With positive heights and distinct landing slots, the beats without a
    landing are never more than the average height. *)
Lemma free_beats_bounded (average t0 : Z) :
  average * Z.of_nat (length pattern) = sumList pattern ->
  0 <= t0 ->
  freeBeatsBefore pattern t0 <= average.
Proof.
  intros Havg Ht0.
  pose proof (patternPeriod_pos pattern pattern_nonempty) as Hp.
  assert (Z.of_nat (length pattern) <= sumList pattern) as Hsum.
  { pose proof (sumList_lower 1 pattern) as H. rewrite Z.mul_1_l in H. apply H.
    eapply Forall_impl; [exact heights_positive|]. simpl. lia. }
  assert (1 <= average) as Havg1 by nia.
  set (k := (average + 1) * t0 + 1).
  set (total := k * Z.of_nat (length pattern)).
  assert (0 <= k) as Hk by (unfold k; nia).
  assert (k <= total) as Hktotal by (unfold total; nia).
  assert (t0 <= total) as Hle by (unfold k in *; nia).
  destruct (airborne_count total ltac:(lia)) as [Hcount Hsumhigh].
  pose proof (free_beats_sum_bound t0 total ltac:(lia)) as Hfree.
  pose proof (sumList_lower total
                (List.filter (fun x => negb (x <? total))
                   (List.map (landingOf pattern) (seqZ 0 total)))) as Hhigh.
  assert (Forall (fun x => total <= x)
            (List.filter (fun x => negb (x <? total))
               (List.map (landingOf pattern) (seqZ 0 total)))) as Hall.
  { apply Forall_forall. intros x [_ Hx]%filter_elem.
    apply negb_true_iff, Z.ltb_ge in Hx. done. }
  specialize (Hhigh Hall). rewrite Hcount in Hhigh.
  unfold total in Hsumhigh at 4. rewrite heights_sum in Hsumhigh by done.
  fold total in Hsumhigh.
  pose proof (freeBeatsBefore_nonneg pattern t0) as Hf0.
  set (F0 := freeBeatsBefore pattern t0) in *.
  set (F := freeBeatsBefore pattern total) in *.
  assert (F0 * (total - t0) <= total * average) as Hkey.
  { assert (k * sumList pattern = total * average) by (unfold total; nia). nia. }
  destruct (Z.le_gt_cases F0 average) as [|Hgt]; [done|]. exfalso.
  assert ((average + 1) * (total - t0) <= F0 * (total - t0)) by nia.
  assert (total <= (average + 1) * t0) by nia.
  unfold k in Hktotal. lia.
Qed.

(** With positive heights, distinct landing slots and the average height
    as ball count, the fallback branch is never the one taken. *)
Lemma expectedSource_zero_free (balls beat : Z) :
  balls * Z.of_nat (length pattern) = sumList pattern ->
  0 <= beat ->
  expectedSource pattern balls beat =
  if landedOn pattern beat then PendingLanding else Introduced.
Proof.
  intros Havg Hbeat. unfold expectedSource.
  destruct (landedOn pattern beat) eqn:Hland; [done|].
  pose proof (free_beats_bounded balls (beat + 1) Havg ltac:(lia)) as Hbound.
  rewrite freeBeatsBefore_succ, Hland in Hbound by done.
  destruct (freeBeatsBefore pattern beat <? balls) eqn:Hlt; [done|lia].
Qed.

Section InTheAir.

Variable balls : Z.
Hypothesis balls_average : balls * Z.of_nat (length pattern) = sumList pattern.

(** The flights still in the air carry pairwise different balls, all of
    them introduced already. *)
Lemma in_the_air_invariant (beat : Z) (st : LoopState) :
  0 <= beat -> stateBefore pattern balls beat = Return st ->
  (forall f : Flight,
      f ∈ flightsSoFar st -> beat <= endBeat f ->
      exists n : Z, ballId f = Int n /\ 0 <= n < nextBallId st) /\
  (forall f g : Flight,
      f ∈ flightsSoFar st -> g ∈ flightsSoFar st ->
      beat <= endBeat f -> beat <= endBeat g ->
      ballId f = ballId g -> f = g) /\
  (forall f g : Flight,
      f ∈ flightsSoFar st -> g ∈ flightsSoFar st ->
      ballId f = ballId g -> startBeat f < startBeat g ->
      endBeat f <= startBeat g).
Proof.
  revert beat st. apply stateBefore_ind.
  - split_and!; intros f; intros; by apply elem_of_nil in H.
  - intros beat st st' Hbeat Hst (IHpool & IHair & IHapart) Hplan.
    destruct (continuity_invariant pattern balls beat st Hbeat Hst)
      as (Hstart & Htable & _).
    rewrite Forall_forall in Hstart.
    pose proof (table_origin pattern balls beat st Hbeat Hst) as Horigin.
    destruct (table_invariant pattern balls beat st Hbeat Hst) as [_ Hnext].
    pose proof (resolveBallId_source pattern balls beat st Hbeat Hst) as Hsrc.
    rewrite (expectedSource_zero_free balls beat balls_average Hbeat) in Hsrc.
    apply planBeat_Return in Hplan. simpl in Hplan.
    rewrite resolveBallId_flights in Hplan.
    (* the ball resolved at this beat is not the ball of a flight that is
       still in the air after this beat *)
    assert (0 <= nextBallId st <= nextBallId (resolveBallId balls beat st).2 /\
            (exists n : Z, (resolveBallId balls beat st).1.2 = Int n /\
                           0 <= n < nextBallId (resolveBallId balls beat st).2) /\
            (forall f : Flight,
                f ∈ flightsSoFar st -> beat + 1 <= endBeat f ->
                ballId f <> (resolveBallId balls beat st).1.2)) as (Hmono & Hnew & Hfresh).
    { pose proof (freeBeatsBefore_nonneg pattern beat) as Hfree.
      unfold resolveBallId in *.
      destruct (catchAssignments st !! beat) as [id|] eqn:Hlook; simpl in *.
      - destruct (Horigin beat id Hlook) as (g & Hg & Hend & Hid).
        split_and!; [lia | lia | |].
        + rewrite <- Hid. apply IHpool; [done|lia].
        + intros f Hf Hair Heq.
          assert (f = g) as -> by (apply IHair; [done | done | lia | lia | congruence]).
          lia.
      - destruct (nextBallId st <? balls) eqn:Hlt; simpl in *.
        + split_and!; [lia | lia | exists (nextBallId st); split; [done|lia] |].
          intros f Hf Hair Heq.
          destruct (IHpool f Hf ltac:(lia)) as (n & Hn & Hrange). rewrite Hn in Heq.
          injection Heq as ->. lia.
        + destruct (landedOn pattern beat); done. }
    destruct Hplan as [[Hv ->]|(Hv & _ & ->)]; simpl.
    + rewrite resolveBallId_flights. split_and!.
      * intros f Hf Hair. destruct (IHpool f Hf ltac:(lia)) as (n & Hn & Hrange).
        exists n. split; [done|lia].
      * intros f g Hf Hg Hairf Hairg. apply IHair; [done | done | lia | lia].
      * done.
    + set (new := {| flightId := _ |}) in *. split_and!.
      * intros f [Hf|Hf%list_elem_of_singleton]%elem_of_app Hair.
        -- destruct (IHpool f Hf ltac:(lia)) as (n & Hn & Hrange).
           exists n. split; [done|lia].
        -- subst f. exact Hnew.
      * intros f g [Hf|Hf%list_elem_of_singleton]%elem_of_app
                   [Hg|Hg%list_elem_of_singleton]%elem_of_app Hairf Hairg Heq.
        -- apply IHair; [done | done | lia | lia | done].
        -- subst g. by destruct (Hfresh f Hf Hairf).
        -- subst f. by destruct (Hfresh g Hg Hairg).
        -- by subst f g.
      * intros f g [Hf|Hf%list_elem_of_singleton]%elem_of_app
                   [Hg|Hg%list_elem_of_singleton]%elem_of_app Heq Hlt.
        -- by apply IHapart.
        -- subst g. simpl in *.
           destruct (decide (endBeat f <= beat)) as [|Hair]; [done|].
           by destruct (Hfresh f Hf ltac:(lia)).
        -- subst f. simpl in *. specialize (Hstart g Hg). simpl in Hstart. lia.
        -- subst f g. lia.
Qed.

End InTheAir.

End ZeroFree.

End PlannerExtras.

(** * The memoised values of the application *)

Module AppExtras.
Import Siteswap Simulation Notions MoreNotions SiteswapFacts PlannerFacts ValidatorExtras.

(** X16. The [parsed] memo holds either the data and no error; or no data
    and the message of the validator, which is never empty and never the
    generic message; or, when the input passes every check and the engine
    does not accept a call with as many arguments as there are heights, no
    data and the generic message, because the [RangeError] of [Math.max] is
    not a [SiteswapError]. So the error paragraph is rendered exactly when
    there is no data, and the prompt paragraph is never rendered. *)
Theorem parsed_data_or_message (toLowerCase : jsstring -> jsstring)
    (fitsArguments : Z -> bool) (siteswap : jsstring) :
  ((exists d : SiteswapData,
       parseSiteswap toLowerCase fitsArguments siteswap = Return d /\
       App.parsed toLowerCase fitsArguments siteswap =
         {| App.data := Some d; App.error := None |} /\
       App.showsError (App.parsed toLowerCase fitsArguments siteswap) = false) \/
   (exists message : jsstring,
       parseSiteswap toLowerCase fitsArguments siteswap = Throw (SiteswapError message) /\
       App.parsed toLowerCase fitsArguments siteswap =
         {| App.data := None; App.error := Some message |} /\
       message <> [] /\ message <> App.MSG_UNABLE /\
       App.showsError (App.parsed toLowerCase fitsArguments siteswap) = true) \/
   (parseSiteswap toLowerCase fitsArguments siteswap = Throw RangeError /\
    fitsArguments (Z.of_nat (length (cleanInput toLowerCase siteswap))) = false /\
    App.parsed toLowerCase fitsArguments siteswap =
      {| App.data := None; App.error := Some App.MSG_UNABLE |} /\
    App.showsError (App.parsed toLowerCase fitsArguments siteswap) = true)) /\
  App.showsPrompt (App.parsed toLowerCase fitsArguments siteswap) = false.
Proof.
  pose proof (parseSiteswap_cases toLowerCase fitsArguments siteswap) as Hcases.
  cbv zeta in Hcases. rewrite length_map in Hcases.
  unfold App.showsPrompt, App.showsError, App.parsed.
  destruct Hcases
    as [[_ H]|[(pre & post & c & _ & _ & _ & H)|(_ & _ & [[_ H]|[(_ & _ & H)|[(_ & _ & _ & H)|[(_ & _ & _ & Hfits & H)|(_ & _ & _ & _ & H)]]]])]];
    rewrite H; simpl; (split; [|done]).
  7: { left. eexists. by split_and!. }
  6: { right. right. by split_and!. }
  all: right; left; eexists; split_and!; [done | done | | | done].
  all: try (intros Heq; vm_compute in Heq; discriminate Heq).
Qed.

(** X17. Computing the [plan] memo never throws, whatever the input: it
    is null when there is no data, and otherwise the plan of six
    repetitions of the accepted pattern, whose duration is positive for a
    positive beat length. *)
Theorem app_plan_never_throws (toLowerCase : jsstring -> jsstring)
    (fitsArguments : Z -> bool) (siteswap : jsstring) :
  (App.data (App.parsed toLowerCase fitsArguments siteswap) = None /\
   App.plan (App.parsed toLowerCase fitsArguments siteswap) = Return None) \/
  (exists (d : SiteswapData) (p : SimulationPlan),
      App.data (App.parsed toLowerCase fitsArguments siteswap) = Some d /\
      App.plan (App.parsed toLowerCase fitsArguments siteswap) = Return (Some p) /\
      buildSimulationPlan (pattern d) (balls d) None = Return p /\
      beats p = 6 * period d /\
      forall beatDuration : Z, 0 < beatDuration -> 0 < App.totalDuration (Some p) beatDuration).
Proof.
  unfold App.parsed.
  destruct (parseSiteswap toLowerCase fitsArguments siteswap) as [e|d] eqn:Hparse; simpl.
  - by left.
  - right. apply parseSiteswap_Return in Hparse as [_ Hacc].
    destruct Hacc as [Hne Hperiod _ _ _ _ Hdist _].
    destruct (buildSimulationPlan_returns (pattern d) (balls d) Hne Hdist None) as [p Hp].
    exists d, p. unfold App.plan. simpl. rewrite Hp. simpl.
    pose proof (patternPeriod_pos (pattern d) Hne) as Hpos.
    apply buildSimulationPlan_Return in Hp as (st & _ & ->). simpl.
    unfold totalBeatsOf, patternPeriod. rewrite Hperiod.
    split_and!; [done | done | done | lia |]. intros beatDuration Hbd. nia.
Qed.

End AppExtras.

(** * Accepted patterns without a zero: consistent ball identities *)

Module ConsistencyExtras.
Import Siteswap Simulation Notions MoreNotions SiteswapFacts PlannerFacts PlannerExtras.

Lemma accepted_zero_free (d : SiteswapData) :
  Accepted d ->
  Forall (fun value => value <> 0) (pattern d) ->
  pattern d <> [] /\
  Forall (fun value => 0 < value) (pattern d) /\
  LandingsDistinct (pattern d) /\
  balls d * Z.of_nat (length (pattern d)) = sumList (pattern d).
Proof.
  intros [Hne Hperiod Hheights _ Havg _ Hdist _] Hnz. split_and!; [done| |done|].
  - rewrite Forall_forall in Hheights, Hnz. apply Forall_forall. intros v Hv.
    specialize (Hheights v Hv). specialize (Hnz v Hv). simpl in *. lia.
  - by rewrite <- Hperiod, <- sumList_sumThrows.
Qed.

(** X18. For an accepted pattern without a zero height, planned with its
    derived ball count, the fallback is never executed: the beats without a
    landing are at most ballCount, a beat where an earlier throw lands
    reuses the landing ball and every other beat introduces a fresh
    identifier. *)
Theorem zero_free_never_falls_back (toLowerCase : jsstring -> jsstring)
    (fitsArguments : Z -> bool)
    (rawInput : jsstring) (d : SiteswapData) (beat : Z) :
  parseSiteswap toLowerCase fitsArguments rawInput = Return d ->
  Forall (fun value => value <> 0) (pattern d) ->
  0 <= beat ->
  freeBeatsBefore (pattern d) beat <= balls d /\
  idSourceAt (pattern d) (balls d) beat =
    Return (if landedOn (pattern d) beat then PendingLanding else Introduced).
Proof.
  intros Hparse Hnz Hbeat. apply parseSiteswap_Return in Hparse as [_ Hacc].
  destruct (accepted_zero_free d Hacc Hnz) as (Hne & Hpos & Hdist & Havg). split.
  - by apply free_beats_bounded.
  - rewrite (idSourceAt_expected (pattern d) (balls d) Hne Hdist beat Hbeat).
    f_equal. by apply expectedSource_zero_free.
Qed.

Lemma zero_free_never_falls_back_witness :
  idSourceAt [5; 3; 1] 3 7 = Return PendingLanding.
Proof.
  destruct (zero_free_never_falls_back asciiToLowerCase typicalLimit (lit "531")
              {| pattern := [5; 3; 1]; period := 3; balls := 3; maxThrow := 5 |} 7)
    as [_ Hsrc]; [reflexivity | repeat constructor; discriminate | lia | exact Hsrc].
Defined.

(** X19. For an accepted pattern without a zero height, planned with its
    derived ball count, a ball is never thrown while it is in the air: of
    two flights of the plan with the same ball, the earlier ends no later
    than the later starts. *)
Theorem zero_free_ball_flights_apart (toLowerCase : jsstring -> jsstring)
    (fitsArguments : Z -> bool)
    (rawInput : jsstring) (d : SiteswapData) (loops : option Z)
    (plan : SimulationPlan) (f g : Flight) :
  parseSiteswap toLowerCase fitsArguments rawInput = Return d ->
  Forall (fun value => value <> 0) (pattern d) ->
  buildSimulationPlan (pattern d) (balls d) loops = Return plan ->
  f ∈ flights plan -> g ∈ flights plan ->
  ballId f = ballId g ->
  startBeat f < startBeat g ->
  endBeat f <= startBeat g.
Proof.
  intros Hparse Hnz Hplan Hf Hg Heq Hlt.
  apply parseSiteswap_Return in Hparse as [_ Hacc].
  destruct (accepted_zero_free d Hacc Hnz) as (Hne & Hpos & Hdist & Havg).
  apply buildSimulationPlan_Return in Hplan as (st & Hst & ->). simpl in Hf, Hg.
  destruct (in_the_air_invariant (pattern d) Hne Hpos Hdist (balls d) Havg _ st
              (totalBeatsOf_nonneg _ _) Hst) as (_ & _ & Hapart).
  by apply (Hapart f g).
Qed.

Lemma zero_free_ball_flights_apart_witness :
  endBeat passFlight0 <= startBeat passFlight1.
Proof.
  apply (zero_free_ball_flights_apart asciiToLowerCase typicalLimit (lit "1")
           {| pattern := [1]; period := 1; balls := 1; maxThrow := 1 |}
           (Some 2) passPlan passFlight0 passFlight1);
    [reflexivity | repeat constructor; discriminate | reflexivity
     | repeat constructor | repeat constructor | reflexivity | reflexivity].
Defined.

End ConsistencyExtras.
